(** * QC-Frontend: ratio calculator, approval gates and transaction submitter

    A shallow embedding of the hooks [usePoolRatio], [useApproval],
    [useAddLiquidity], [useRemoveLiquidity] and [useStake], of
    [useFarmPools], and of what the stake modal, AutoRatioInput and the
    add-liquidity modal do with them.

    - JavaScript [number]s that carry token quantities are IEEE-754 binary64
      values, modelled by [spec_float] at precision 53 and exponent bound
      1024 (the Standard Library's executable specification of binary64).
    - [bigint]s are [Z]; bigint division truncates toward zero ([Z.quot]).
    - Integral [number]s are [Z] (clock, slippage percentage, back-off
      delay) or [nat] (retry count, decimals).
    - Strings are [string] (a sequence of 8-bit characters); addresses and
      amounts are ASCII. *)

From Stdlib Require Import ZArith List String Ascii Bool Lia.
From Stdlib Require Import Floats.SpecFloat.
From Stdlib Require Import Numbers.DecimalString.
Import ListNotations.

Local Open Scope Z_scope.

(** ** The JavaScript runtime: binary64 numbers and their decimal strings *)

Module JS.

Definition number := spec_float.

Definition prec : Z := 53.
Definition emax : Z := 1024.

Definition NaN : number := S754_nan.
Definition pos_zero : number := S754_zero false.
Definition Infinity : number := S754_infinity false.

(** [x * y], [x / y] and [x + y]. *)
Definition mul (x y : number) : number := SFmul prec emax x y.
Definition div (x y : number) : number := SFdiv prec emax x y.
Definition add (x y : number) : number := SFadd prec emax x y.

(** [x < y], [x <= y], [x > y], [x === y]. *)
Definition lt (x y : number) : bool := SFltb x y.
Definition le (x y : number) : bool := SFleb x y.
Definition gt (x y : number) : bool := SFltb y x.
Definition strict_eq (x y : number) : bool := SFeqb x y.

(** ToBoolean on a number: NaN, +0 and -0 are falsy. *)
Definition truthy (x : number) : bool :=
  match x with
  | S754_nan | S754_zero _ => false
  | _ => true
  end.

(** [x || y] on numbers. *)
Definition or_else (x y : number) : number := if truthy x then x else y.

(** The binary64 value nearest to [n / d] (ties to even), with sign [neg]. *)
Definition of_ratio (neg : bool) (n d : positive) : number :=
  let '(q, e, l) := SFdiv_core_binary prec emax (Zpos n) 0 (Zpos d) 0 in
  binary_round_aux prec emax neg q e l.

(** The binary64 value nearest to [m * 10 ^ e10], for [0 <= m]. *)
Definition of_decimal (neg : bool) (m e10 : Z) : number :=
  match m with
  | Zpos p =>
      if 0 <=? e10 then of_ratio neg (p * Z.to_pos (10 ^ e10)) 1
      else of_ratio neg p (Z.to_pos (10 ^ (- e10)))
  | _ => S754_zero neg
  end.

Definition of_Z (z : Z) : number :=
  of_decimal (z <? 0) (Z.abs z) 0.

(** *** Lexing decimal literals *)

Definition is_digit (c : ascii) : bool :=
  let n := nat_of_ascii c in (48 <=? n)%nat && (n <=? 57)%nat.

Definition digit_value (c : ascii) : Z := Z.of_nat (nat_of_ascii c) - 48.

(** WhiteSpace and LineTerminator code points below 128. *)
Definition is_space (c : ascii) : bool :=
  let n := nat_of_ascii c in
  ((9 <=? n)%nat && (n <=? 13)%nat) || (n =? 32)%nat.

Fixpoint trimStart (s : string) : string :=
  match s with
  | String c r => if is_space c then trimStart r else s
  | EmptyString => s
  end.

(** The longest run of decimal digits at the front, and what follows. *)
Fixpoint span_digits (s : string) : list ascii * string :=
  match s with
  | String c r =>
      if is_digit c then let '(ds, rest) := span_digits r in (c :: ds, rest)
      else ([], s)
  | EmptyString => ([], s)
  end.

Definition digits_value (ds : list ascii) : Z :=
  fold_left (fun acc c => 10 * acc + digit_value c) ds 0.

Definition take_sign (s : string) : bool * string :=
  match s with
  | String "-" r => (true, r)
  | String "+" r => (false, r)
  | _ => (false, s)
  end.

(** ExponentPart, when present and well formed; 0 otherwise. *)
Definition exponent_part (s : string) : Z :=
  match s with
  | String c r =>
      if (Ascii.eqb c "e" || Ascii.eqb c "E")%bool then
        let '(eneg, r1) := take_sign r in
        let '(ds, _) := span_digits r1 in
        match ds with
        | [] => 0
        | _ => if eneg then - digits_value ds else digits_value ds
        end
      else 0
  | EmptyString => 0
  end.

(** [parseFloat]: the value of the longest prefix of the trimmed input that
    is a StrDecimalLiteral, NaN when there is none.  The mathematical value
    is rounded to the nearest binary64. *)
Definition parseFloat (s : string) : number :=
  let '(neg, s1) := take_sign (trimStart s) in
  if String.prefix "Infinity" s1 then S754_infinity neg
  else
    let '(ip, s2) := span_digits s1 in
    let '(fp, s3) :=
      match s2 with
      | String "." r => span_digits r
      | _ => ([], s2)
      end in
    match ip, fp with
    | [], [] => NaN
    | _, _ =>
        of_decimal neg (digits_value (ip ++ fp))
                   (exponent_part s3 - Z.of_nat (List.length fp))
    end.

(** *** Printing decimal strings *)

Local Open Scope string_scope.

(** The decimal digits of a non-negative integer. *)
Definition digits_of (n : Z) : string :=
  NilZero.string_of_uint (N.to_uint (Z.to_N n)).

Definition ndigits (n : Z) : Z := Z.of_nat (String.length (digits_of n)).

Fixpoint zeros (k : nat) : string :=
  match k with
  | O => EmptyString
  | S k' => String "0" (zeros k')
  end.

(** The exact value [p / q] of the finite binary64 [m * 2 ^ e]. *)
Definition exact (m : positive) (e : Z) : Z * Z :=
  if (0 <=? e)%Z then (Zpos m * 2 ^ e, 1) else (Zpos m, 2 ^ (- e)).

(** [p / q * 10 ^ k] as a fraction. *)
Definition scale10 (pq : Z * Z) (k : Z) : Z * Z :=
  let '(p, q) := pq in
  if (0 <=? k)%Z then (p * 10 ^ k, q) else (p, q * 10 ^ (- k)).

(** The integer nearest to [p / q], the larger one on a tie. *)
Definition round_half_up (pq : Z * Z) : Z :=
  let '(p, q) := pq in (2 * p + q) / (2 * q).

(** The [e] with [10 ^ e <= p / q < 10 ^ (e + 1)], for positive [p], [q]. *)
Definition floor_log10 (pq : Z * Z) : Z :=
  let '(p, q) := pq in
  let k := ndigits p - ndigits q in
  let '(p', q') := scale10 pq (- k) in
  if (q' <=? p')%Z then k else k - 1.

Definition sign_prefix (neg : bool) : string := if neg then "-" else "".

(** Steps 11.b to 11.c of Number.prototype.toFixed: [n] with a point
    before its last [fd] digits. *)
Definition fixed_digits (n : Z) (fd : nat) : string :=
  let m := digits_of n in
  match fd with
  | O => m
  | _ =>
      let m' := zeros (S fd - String.length m)%nat ++ m in
      let k := String.length m' in
      substring 0 (k - fd)%nat m' ++ "." ++ substring (k - fd)%nat fd m'
  end.

Fixpoint strip_trailing_zeros (s : string) : string :=
  match s with
  | EmptyString => EmptyString
  | String c r =>
      match strip_trailing_zeros r with
      | EmptyString => if Ascii.eqb c "0" then EmptyString else String c EmptyString
      | r' => String c r'
      end
  end.

(** The shortest decimal that reads back as the integer-valued binary64
    [x] of value [X]: the fewest significant digits, then the nearest
    value, then the even last digit. *)
Fixpoint shortest_from (fuel : nat) (k : Z) (X : Z) (x : number) : Z :=
  match fuel with
  | O => X
  | S fuel' =>
      let u := 10 ^ (ndigits X - k) in
      let lo := (X / u) * u in
      let hi := lo + u in
      let ok_lo := SFeqb (of_Z lo) x in
      let ok_hi := SFeqb (of_Z hi) x in
      match ok_lo, ok_hi with
      | true, true =>
          if (X - lo <? hi - X)%Z then lo
          else if (hi - X <? X - lo)%Z then hi
          else if Z.even (X / u) then lo else hi
      | true, false => lo
      | false, true => hi
      | false, false => shortest_from fuel' (k + 1) X x
      end
  end.

(** Number::toString for a finite [x = m * 2 ^ e] with [10 ^ 21 <= x]:
    always the exponential form. *)
Definition toString_large (m : positive) (e : Z) : string :=
  let X := fst (exact m e) in
  let v := shortest_from 17 1 X (S754_finite false m e) in
  let ds := digits_of v in
  let sig := strip_trailing_zeros ds in
  let d := digits_of (Z.of_nat (String.length ds) - 1) in
  match sig with
  | String c EmptyString => String c ("e+" ++ d)
  | String c r => String c ("." ++ r ++ "e+" ++ d)
  | EmptyString => ds
  end.

(** [x.toFixed(fd)]. *)
Definition toFixed (x : number) (fd : nat) : string :=
  match x with
  | S754_nan => "NaN"
  | S754_infinity s => sign_prefix s ++ "Infinity"
  | S754_zero _ => fixed_digits 0 fd
  | S754_finite s m e =>
      let '(p, q) := exact m e in
      sign_prefix s ++
        (if (10 ^ 21 * q <=? p)%Z then toString_large m e
         else fixed_digits (round_half_up (scale10 (p, q) (Z.of_nat fd))) fd)
  end.

(** The digits [m] with a point after the first one (when [fd] is not
    zero), then the exponent. *)
Definition exponential_digits (m : string) (e10 : Z) (fd : nat) : string :=
  let m' := match fd with
            | O => m
            | _ => substring 0 1 m ++ "." ++ substring 1 fd m
            end in
  m' ++ "e" ++ (if (e10 <? 0)%Z then "-" else "+") ++ digits_of (Z.abs e10).

(** [x.toExponential(fd)]. *)
Definition toExponential (x : number) (fd : nat) : string :=
  match x with
  | S754_nan => "NaN"
  | S754_infinity s => sign_prefix s ++ "Infinity"
  | S754_zero _ => exponential_digits (zeros (S fd)) 0 fd
  | S754_finite s m e =>
      let pq := exact m e in
      let e10 := floor_log10 pq in
      let n := round_half_up (scale10 pq (Z.of_nat fd - e10)) in
      sign_prefix s ++
        (if (n =? 10 ^ (Z.of_nat fd + 1))%Z
         then exponential_digits (digits_of (10 ^ Z.of_nat fd)) (e10 + 1) fd
         else exponential_digits (digits_of n) e10 fd)
  end.

(** [Math.round(x)] as an integer: the nearest one, the larger on a tie;
    nothing for NaN and the infinities. *)
Definition Math_round (x : number) : option Z :=
  match x with
  | S754_zero _ => Some 0%Z
  | S754_finite s m e =>
      let '(p, q) := exact m e in
      Some (round_half_up (if s then (- p)%Z else p, q))
  | _ => None
  end.

(** The integer below [p / q], for [0 < q]. *)
Definition floor_fraction (pq : Z * Z) : Z := let '(p, q) := pq in (p / q)%Z.

(** [Math.floor(x)]. *)
Definition Math_floor (x : number) : number :=
  match x with
  | S754_finite s m e =>
      let '(p, q) := exact m e in
      match floor_fraction (if s then (- p)%Z else p, q) with
      | Z0 => S754_zero s
      | z => of_Z z
      end
  | _ => x
  end.

(** [BigInt(x)]: the integer [x], nothing when [x] is not an integer
    (a RangeError). *)
Definition BigInt (x : number) : option Z :=
  match x with
  | S754_zero _ => Some 0%Z
  | S754_finite s m e =>
      let '(p, q) := exact m e in
      if (p mod q =? 0)%Z then Some (if s then (- (p / q))%Z else (p / q)%Z)
      else None
  | _ => None
  end.

End JS.

(** ** viem's [parseUnits]

  The hooks convert amounts with [parseUnits] of the viem library, which
  is not part of this repository: the hooks take it as a parameter
  [parseUnits : string -> nat -> option Z] ([None] when it throws) and
  their properties hold for any such function.  The definition below
  follows viem's implementation and serves the examples:
  the input must match [-?[0-9]*\.?[0-9]*]; a fraction longer than
  [decimals] is rounded on its last kept digit. *)

Module Viem.

Local Open Scope string_scope.

Fixpoint strip_zeros (ds : list ascii) : list ascii :=
  match ds with
  | [] => []
  | c :: r =>
      match strip_zeros r with
      | [] => if Ascii.eqb c "0" then [] else [c]
      | r' => c :: r'
      end
  end.

Definition rounded_digit (unit : ascii) (right : list ascii) : Z :=
  match JS.Math_round
          (JS.parseFloat (String unit ("." ++ string_of_list_ascii right))) with
  | Some r => r
  | None => 0
  end.

Definition parseUnits (value : string) (decimals : nat) : option Z :=
  let '(negative, s) :=
    match value with
    | String "-" r => (true, r)
    | _ => (false, value)
    end in
  let '(integer, s1) := JS.span_digits s in
  let '(fraction, s2) :=
    match s1 with
    | String "." r => JS.span_digits r
    | _ => ([], s1)
    end in
  match s2 with
  | EmptyString =>
      let fraction := strip_zeros fraction in
      let i := JS.digits_value integer in
      let magnitude :=
        match decimals with
        | O =>
            match JS.Math_round
                    (JS.parseFloat ("." ++ string_of_list_ascii fraction)) with
            | Some 1 => i + 1
            | _ => i
            end
        | S d =>
            if (decimals <? List.length fraction)%nat then
              let left := firstn d fraction in
              let unit := nth d fraction "0"%char in
              let right := skipn decimals fraction in
              i * 10 ^ Z.of_nat decimals
              + JS.digits_value left * 10 + rounded_digit unit right
            else
              i * 10 ^ Z.of_nat decimals
              + JS.digits_value fraction
                * 10 ^ Z.of_nat (decimals - List.length fraction)
        end in
      Some (if negative then - magnitude else magnitude)
  | _ => None
  end.

End Viem.

(** ** String methods used by the hooks *)

Module Str.

Local Open Scope string_scope.

(** [String.prototype.toLowerCase] on the letters A to Z. *)
Definition lower_ascii (c : ascii) : ascii :=
  let n := nat_of_ascii c in
  if ((65 <=? n)%nat && (n <=? 90)%nat)%bool then ascii_of_nat (n + 32) else c.

Fixpoint toLowerCase (s : string) : string :=
  match s with
  | EmptyString => EmptyString
  | String c r => String (lower_ascii c) (toLowerCase r)
  end.

(** [s.includes(search)]. *)
Fixpoint includes (s search : string) : bool :=
  (String.prefix search s ||
   match s with
   | EmptyString => false
   | String _ r => includes r search
   end)%bool.

(** [[a, b].sort()]: the default comparison orders strings by code unit
    and the sort is stable. *)
Definition sort2 (a b : string) : string * string :=
  if b <? a then (b, a) else (a, b).

(** A string in a boolean position: the empty string is falsy. *)
Definition truthy (s : string) : bool := negb (s =? "").

End Str.

(** ** config/contracts.ts and config/tokens.ts *)

Module Config.

Local Open Scope string_scope.

Definition ROUTER : string := "0xa45cc7A52C5179BD24076994Ef253Eb1FB1A9929".
Definition WMON : string := "0x3bd359C1119dA7Da1D913D1C4D2B7c461115433A".
Definition QUICK : string := "0x6d42eFC8B2EC16cC61B47BfC2ABb38D570Faabb5".
Definition NATIVE_ADDRESS : string := "0x0000000000000000000000000000000000000000".

Record Token := {
  address : string;
  symbol : string;
  name : string;
  decimals : nat;
  isNative : option bool   (* isNative?: boolean *)
}.

Definition MON_TOKEN : Token :=
  {| address := NATIVE_ADDRESS; symbol := "MON"; name := "Monad";
     decimals := 18; isNative := Some true |}.

Definition WMON_TOKEN : Token :=
  {| address := WMON; symbol := "WMON"; name := "Wrapped MON";
     decimals := 18; isNative := Some false |}.

Definition QUICK_TOKEN : Token :=
  {| address := QUICK; symbol := "QUICK"; name := "QuickSwap Token";
     decimals := 18; isNative := Some false |}.

(** [token.address === NATIVE_ADDRESS || token.isNative]. *)
Definition is_native (t : Token) : bool :=
  ((address t =? NATIVE_ADDRESS) ||
   match isNative t with Some b => b | None => false end)%bool.

End Config.

(** ** hooks/usePoolRatio.ts *)

Module PoolRatio.

Import Config.
Local Open Scope string_scope.

Record PoolReserves := {
  reserve0 : string;
  reserve1 : string;
  totalSupply : string;
  token0 : string * string;   (* id, symbol *)
  token1 : string * string
}.

(** The hook's state cells. *)
Record State := {
  reserves : option PoolReserves;
  loading : bool;
  error : option string;
  isTokenAFirst : bool
}.

Definition initial : State :=
  {| reserves := None; loading := false; error := None; isTokenAFirst := true |}.

Definition setReserves (r : option PoolReserves) (st : State) : State :=
  {| reserves := r; loading := loading st; error := error st;
     isTokenAFirst := isTokenAFirst st |}.
Definition setLoading (b : bool) (st : State) : State :=
  {| reserves := reserves st; loading := b; error := error st;
     isTokenAFirst := isTokenAFirst st |}.
Definition setError (e : option string) (st : State) : State :=
  {| reserves := reserves st; loading := loading st; error := e;
     isTokenAFirst := isTokenAFirst st |}.
Definition setIsTokenAFirst (b : bool) (st : State) : State :=
  {| reserves := reserves st; loading := loading st; error := error st;
     isTokenAFirst := b |}.

(** WMON stands in for native MON. *)
Definition getActualAddress (token : Token) : string :=
  if is_native token then Str.toLowerCase WMON
  else Str.toLowerCase (address token).

(** What the indexer sends back for a [pairs] query. *)
Inductive Reply :=
| Fails (message : option string)   (* fetch or json() throws; an Error carries a message *)
| Errors (message : string)         (* data.errors[0].message *)
| Pairs (pairs : list PoolReserves) (* data.data.pairs *).

(** The indexer, as a function of the [token0_] and [token1_] ids asked for. *)
Definition Subgraph := string -> string -> Reply.

Definition fetchReserves (tokenA tokenB : option Token) (subgraph : Subgraph)
           (st : State) : State :=
  match tokenA, tokenB with
  | Some tA, Some tB =>
      let addressA := getActualAddress tA in
      let addressB := getActualAddress tB in
      if addressA =? addressB then setError (Some "Same token selected") st
      else
        let st := setError None (setLoading true st) in
        let '(token0Addr, token1Addr) := Str.sort2 addressA addressB in
        let st := setIsTokenAFirst (addressA =? token0Addr) st in
        let st :=
          match subgraph token0Addr token1Addr with
          | Errors msg => setError (Some msg) st
          | Pairs (p :: _) => setReserves (Some p) st
          | Pairs [] =>
              setError (Some "Pool not found - this will create a new pool")
                       (setReserves None st)
          | Fails (Some msg) => setError (Some msg) st
          | Fails None => setError (Some "Failed to fetch reserves") st
          end in
        setLoading false st
  | _, _ => setReserves None st
  end.

Definition reserveA (st : State) : string :=
  match reserves st with
  | Some r => if isTokenAFirst st then reserve0 r else reserve1 r
  | None => "0"
  end.

Definition reserveB (st : State) : string :=
  match reserves st with
  | Some r => if isTokenAFirst st then reserve1 r else reserve0 r
  | None => "0"
  end.

Definition zero : JS.number := JS.pos_zero.
Definition one : JS.number := JS.of_Z 1.
Definition thousand : JS.number := JS.of_Z 1000.
(** The literal [0.000001]. *)
Definition millionth : JS.number := JS.of_decimal false 1 (-6).

Definition reserveANum (st : State) : JS.number :=
  JS.or_else (JS.parseFloat (reserveA st)) zero.
Definition reserveBNum (st : State) : JS.number :=
  JS.or_else (JS.parseFloat (reserveB st)) zero.

(** tokenB per tokenA, and tokenA per tokenB. *)
Definition ratio (st : State) : JS.number :=
  if JS.gt (reserveANum st) zero
  then JS.div (reserveBNum st) (reserveANum st) else one.
Definition reverseRatio (st : State) : JS.number :=
  if JS.gt (reserveBNum st) zero
  then JS.div (reserveANum st) (reserveBNum st) else one.

Definition poolExists (st : State) : bool :=
  match reserves st with Some _ => true | None => false end.

Definition calculateAmountB (st : State) (amountA : string) : string :=
  if (negb (Str.truthy amountA) || JS.le (JS.parseFloat amountA) zero)%bool then ""
  else if (negb (poolExists st) || JS.strict_eq (reserveANum st) zero)%bool
  then amountA
  else
    let numA := JS.parseFloat amountA in
    let calculatedB := JS.mul numA (ratio st) in
    if JS.lt calculatedB millionth then JS.toExponential calculatedB 4
    else if JS.lt calculatedB one then JS.toFixed calculatedB 8
    else if JS.lt calculatedB thousand then JS.toFixed calculatedB 6
    else JS.toFixed calculatedB 4.

Definition calculateAmountA (st : State) (amountB : string) : string :=
  if (negb (Str.truthy amountB) || JS.le (JS.parseFloat amountB) zero)%bool then ""
  else if (negb (poolExists st) || JS.strict_eq (reserveBNum st) zero)%bool
  then amountB
  else
    let numB := JS.parseFloat amountB in
    let calculatedA := JS.mul numB (reverseRatio st) in
    if JS.lt calculatedA millionth then JS.toExponential calculatedA 4
    else if JS.lt calculatedA one then JS.toFixed calculatedA 8
    else if JS.lt calculatedA thousand then JS.toFixed calculatedA 6
    else JS.toFixed calculatedA 4.

(** *** The calculator as the specification words it *)

(** The rounding for display: exponential notation below [1e-6],
    otherwise 8, 6 or 4 fractional digits by magnitude. *)
Definition spec_display_digits (x : JS.number) : nat :=
  if JS.lt x one then 8%nat else if JS.lt x thousand then 6%nat else 4%nat.

Definition spec_display (x : JS.number) : string :=
  if JS.lt x millionth then JS.toExponential x 4
  else JS.toFixed x (spec_display_digits x).

(** [amount * (reserveTo / reserveFrom)], rounded for display. *)
Definition spec_proportional (amount reserveFrom reserveTo : string) : string :=
  spec_display (JS.mul (JS.parseFloat amount)
                  (JS.div (JS.parseFloat reserveTo) (JS.parseFloat reserveFrom))).

End PoolRatio.

(** ** Values shared by the hooks that talk to the chain *)

Module Rpc.

Local Open Scope string_scope.

(** A thrown value, read through [shortMessage] and [message]. *)
Record JsError := {
  shortMessage : option string;
  message : option string
}.

(** [new Error(msg)]. *)
Definition Error (msg : string) : JsError :=
  {| shortMessage := None; message := Some msg |}.

(** The settlement of a promise. *)
Inductive Answer (A : Type) :=
| Resolved (a : A)
| Rejected (e : JsError).
Arguments Resolved {A} a.
Arguments Rejected {A} e.

(** An optional string in a boolean position. *)
Definition present (s : option string) : bool :=
  match s with
  | Some v => Str.truthy v
  | None => false
  end.

(** An optional bigint in a boolean position: [undefined] and [0n] are
    falsy. *)
Definition truthy_bigint (v : option Z) : bool :=
  match v with
  | Some n => negb (n =? 0)%Z
  | None => false
  end.

(** [a || dflt] on an optional string. *)
Definition or_string (a : option string) (dflt : string) : string :=
  match a with
  | Some v => if Str.truthy v then v else dflt
  | None => dflt
  end.

(** [a || b || dflt]. *)
Definition first_present (a b : option string) (dflt : string) : string :=
  or_string a (or_string b dflt).

End Rpc.

(** ** hooks/useApproval.ts *)

Module Approval.

Import Config.
Local Open Scope string_scope.

Definition default_decimals : nat := 18.

Section WithViem.

Variable parseUnits : string -> nat -> option Z.

(** [tokenAddress === NATIVE_ADDRESS || !tokenAddress]. *)
Definition isNative (tokenAddress : option string) : bool :=
  match tokenAddress with
  | Some a => ((a =? NATIVE_ADDRESS) || negb (Str.truthy a))%bool
  | None => true
  end.

(** [amount && parseFloat(amount) > 0 ? parseUnits(amount, decimals) : 0n];
    [None] when [parseUnits] throws. *)
Definition amountBigInt (amount : string) (decimals : nat) : option Z :=
  if (Str.truthy amount && JS.gt (JS.parseFloat amount) JS.pos_zero)%bool
  then parseUnits amount decimals
  else Some 0.

(** [(allowance as bigint) || 0n]. *)
Definition currentAllowance (allowance : option Z) : Z :=
  match allowance with
  | Some a => if Rpc.truthy_bigint allowance then a else 0
  | None => 0
  end.

(** The [needsApproval] flag of [useApproval]; [None] when rendering
    throws. *)
Definition needsApproval (tokenAddress : option string) (amount : string)
           (decimals : nat) (allowance : option Z) : option bool :=
  match amountBigInt amount decimals with
  | Some amt =>
      Some (negb (isNative tokenAddress) && (0 <? amt)%Z
            && (currentAllowance allowance <? amt)%Z)%bool
  | None => None
  end.

(** The flag of [useLPApproval]. *)
Definition needsLPApproval (amount : Z) (allowance : option Z) : bool :=
  ((0 <? amount)%Z && (currentAllowance allowance <? amount)%Z)%bool.

End WithViem.

End Approval.

(** ** hooks/useAddLiquidity.ts and hooks/useRemoveLiquidity.ts *)

Module Liquidity.

Import Config.
Local Open Scope string_scope.

(** The router functions the hooks call, with their arguments in order. *)
Inductive RouterCall :=
| AddLiquidityETH (token : string)
    (amountTokenDesired amountTokenMin amountETHMin : Z)
    (to : string) (deadline : Z)
| AddLiquidity (tokenA tokenB : string)
    (amountADesired amountBDesired amountAMin amountBMin : Z)
    (to : string) (deadline : Z)
| RemoveLiquidityETH (token : string)
    (liquidity amountTokenMin amountETHMin : Z)
    (to : string) (deadline : Z)
| RemoveLiquidity (tokenA tokenB : string)
    (liquidity amountAMin amountBMin : Z)
    (to : string) (deadline : Z).

(** The argument of [writeContract]. *)
Record WriteRequest := {
  call : RouterCall;
  value : option Z;
  gas : option Z
}.

Inductive Thrown :=
| Error (message : string)
| InvalidDecimalNumberError.

Inductive Outcome :=
| Throws (e : Thrown)
| Writes (req : WriteRequest).

(** [publicClient.estimateContractGas] on a call and its value: the
    estimate, or nothing when it throws. *)
Definition Estimator := RouterCall -> option Z -> option Z.


(** [BigInt(Math.floor(Date.now() / 1000) + 1200)], for a clock [now] in
    whole milliseconds: on such a clock the binary64 quotient has the same
    integer part as the exact one, and the sum is exact. *)
Definition deadline_at (now : Z) : Z := now / 1000 + 1200.

(** The same expression evaluated in binary64, step by step. *)
Definition deadline_binary64 (now : Z) : option Z :=
  JS.BigInt (JS.add (JS.Math_floor (JS.div (JS.of_Z now) (JS.of_Z 1000)))
                    (JS.of_Z 1200)).

Definition deadline_of (c : RouterCall) : Z :=
  match c with
  | AddLiquidityETH _ _ _ _ _ d => d
  | AddLiquidity _ _ _ _ _ _ _ d => d
  | RemoveLiquidityETH _ _ _ _ _ d => d
  | RemoveLiquidity _ _ _ _ _ _ d => d
  end.

(** [try { gas = estimate; writeContract({.., gas * 120 / 100}) }
     catch { writeContract({..}) }]. *)
Definition write_with_estimate (estimate : Estimator) (c : RouterCall)
           (v : option Z) : Outcome :=
  match estimate c v with
  | Some gasEstimate =>
      Writes {| call := c; value := v; gas := Some ((gasEstimate * 120) ÷ 100) |}
  | None => Writes {| call := c; value := v; gas := None |}
  end.

Section WithViem.

Variable parseUnits : string -> nat -> option Z.

Definition addLiquidity (address : option string) (publicClient : option Estimator)
           (tokenA tokenB : Token) (slippage : Z) (now : Z)
           (amountA amountB : string) : Outcome :=
  match address, publicClient with
  | Some account, Some estimate =>
      if negb (Str.truthy account) then Throws (Error "Wallet not connected")
      else if (negb (Str.truthy amountA) || negb (Str.truthy amountB)
               || JS.le (JS.parseFloat amountA) JS.pos_zero
               || JS.le (JS.parseFloat amountB) JS.pos_zero)%bool
      then Throws (Error "Invalid amounts")
      else
        match parseUnits amountA (decimals tokenA),
              parseUnits amountB (decimals tokenB) with
        | Some amountAWei, Some amountBWei =>
            let deadline := deadline_at now in
            let slippageMultiplier := 100 - slippage in
            let isTokenANative := is_native tokenA in
            let isTokenBNative := is_native tokenB in
            if (isTokenANative || isTokenBNative)%bool then
              let nativeAmount := if isTokenANative then amountAWei else amountBWei in
              let tokenAmount := if isTokenANative then amountBWei else amountAWei in
              let tokenAddress :=
                if isTokenANative then Config.address tokenB
                else Config.address tokenA in
              let minToken := (tokenAmount * slippageMultiplier) ÷ 100 in
              let minETH := (nativeAmount * slippageMultiplier) ÷ 100 in
              write_with_estimate estimate
                (AddLiquidityETH tokenAddress tokenAmount minToken minETH
                                 account deadline)
                (Some nativeAmount)
            else
              let minAmountA := (amountAWei * slippageMultiplier) ÷ 100 in
              let minAmountB := (amountBWei * slippageMultiplier) ÷ 100 in
              write_with_estimate estimate
                (AddLiquidity (Config.address tokenA) (Config.address tokenB)
                              amountAWei amountBWei minAmountA minAmountB
                              account deadline)
                None
        | _, _ => Throws InvalidDecimalNumberError
        end
  | _, _ => Throws (Error "Wallet not connected")
  end.

End WithViem.

Definition removeLiquidity (address : option string) (publicClient : option Estimator)
           (slippage : Z) (now : Z)
           (lpAmount : Z) (token0Address token1Address : string)
           (minAmount0 minAmount1 : Z) (hasWMON : bool) : Outcome :=
  match address, publicClient with
  | Some account, Some estimate =>
      if negb (Str.truthy account) then Throws (Error "Wallet not connected")
      else if (lpAmount <=? 0)%Z then Throws (Error "Invalid LP amount")
      else
        let deadline := deadline_at now in
        let slippageMultiplier := 100 - slippage in
        let minOut0 := (minAmount0 * slippageMultiplier) ÷ 100 in
        let minOut1 := (minAmount1 * slippageMultiplier) ÷ 100 in
        if hasWMON then
          let isToken0WMON :=
            Str.toLowerCase token0Address =? Str.toLowerCase WMON in
          let tokenAddress := if isToken0WMON then token1Address else token0Address in
          let minTokenAmount := if isToken0WMON then minOut1 else minOut0 in
          let minETHAmount := if isToken0WMON then minOut0 else minOut1 in
          write_with_estimate estimate
            (RemoveLiquidityETH tokenAddress lpAmount minTokenAmount minETHAmount
                                account deadline)
            None
        else
          write_with_estimate estimate
            (RemoveLiquidity token0Address token1Address lpAmount minOut0 minOut1
                             account deadline)
            None
  | _, _ => Throws (Error "Wallet not connected")
  end.

End Liquidity.

(** ** hooks/useStake.ts

  The hook's calls to the chain and the wallet are recorded as a trace of
  events; what the chain and the wallet answer is given by a [World].  Of
  the log lines, the two that delimit an attempt are kept.  The state
  setters that only feed the display ([setIsProcessing], [setTxError],
  [setTxHash], [setIsSuccess]) do not influence control flow and are left
  out. *)

Module Stake.

Import Rpc.
Local Open Scope string_scope.
Local Open Scope list_scope.

Definition ZERO_ADDRESS : string := "0x0000000000000000000000000000000000000000".

Record TxResult := {
  success : bool;
  hash : option string;
  error : option string
}.

Definition succeeded (h : string) : TxResult :=
  {| success := true; hash := Some h; error := None |}.
Definition failed (msg : string) : TxResult :=
  {| success := false; hash := None; error := Some msg |}.

Inductive BlockTag := latest | earliest | pending | safe | finalized.

(** The argument of [walletClient.writeContract] for the MasterChef. *)
Record WriteRequest := {
  to : string;
  functionName : string;
  args : Z * Z;            (* pid, amount *)
  gas : Z;
  nonce : Z;
  gasPrice : Z
}.

Inductive Event :=
| ReadContract (functionName : string)
| LogAttempt (attempt retries : nat)
| GetTransactionCount (account : string) (blockTag : BlockTag)
| EstimateContractGas (functionName : string) (args : Z * Z)
| GetGasPrice
| WriteContract (req : WriteRequest)
| WaitForTx (hash : string) (timeoutMs : Z)
| LogFailed (attempt : nat) (lastError : string)
| Sleep (ms : Z).

(** What the chain and the wallet answer during one attempt:
    [getTransactionCount], [estimateContractGas], [getGasPrice],
    [writeContract], and whether [waitForTx] saw a successful receipt
    before its timeout. *)
Record Attempt := {
  transactionCount : Answer Z;
  estimatedGas : Answer Z;
  currentGasPrice : Answer Z;
  written : Answer string;
  confirmed : bool
}.

Record World := {
  poolLength : Answer Z;
  poolInfo : Answer (string * Z);     (* lpToken, allocPoint *)
  attempt_at : nat -> Attempt
}.

(** What the hook closes over when [stake] or [unstake] is called. *)
Record Hook := {
  walletClient : bool;
  address : option string;
  publicClient : bool;
  masterChef : string;               (* config.address *)
  lpToken : string;                  (* pool.lpToken *)
  pid : Z;
  poolVerified : bool;
  poolError : option string;
  allowance : option Z;
  lpBalance : option Z
}.

Definition default_retries : nat := 3.

(** [!walletClient || !address || !publicClient]. *)
Definition disconnected (h : Hook) : bool :=
  (negb (walletClient h) || negb (present (address h)) || negb (publicClient h))%bool.

Definition account (h : Hook) : string :=
  match address h with Some a => a | None => "" end.

Definition getFreshNonce (h : Hook) (a : Attempt) : list Event * Answer Z :=
  if (negb (publicClient h) || negb (present (address h)))%bool
  then ([], Rejected (Error "Not connected"))
  else ([GetTransactionCount (account h) pending], transactionCount a).

Definition estimateGasWithBuffer (h : Hook) (a : Attempt)
           (fn : string) (fargs : Z * Z) : list Event * Z :=
  if (negb (publicClient h) || negb (present (address h)))%bool
  then ([], 500000)
  else
    ([EstimateContractGas fn fargs],
     match estimatedGas a with
     | Resolved estimated => (estimated * 180) ÷ 100
     | Rejected _ => 500000
     end).

(** [waitForTx]: the receipt is polled every two seconds until the timeout;
    whether a successful receipt was seen in time is the chain's answer. *)
Definition waitForTx (h : Hook) (a : Attempt) (hash_ : string) (timeoutMs : Z)
  : list Event * bool :=
  if negb (publicClient h) then ([], false)
  else ([WaitForTx hash_ timeoutMs], confirmed a).

Definition verifyPool (h : Hook) (w : World) : list Event * bool :=
  if negb (publicClient h) then ([], false)
  else
    match poolLength w with
    | Rejected _ => ([ReadContract "poolLength"], false)
    | Resolved len =>
        if (len <=? pid h)%Z then ([ReadContract "poolLength"], false)
        else
          match poolInfo w with
          | Rejected _ =>
              ([ReadContract "poolLength"; ReadContract "poolInfo"], false)
          | Resolved (lp, allocPoint) =>
              ([ReadContract "poolLength"; ReadContract "poolInfo"],
               negb (Str.toLowerCase lp =? Str.toLowerCase ZERO_ADDRESS))
          end
    end.

(** How one pass through the body of the [try] ends. *)
Inductive AttemptEnd :=
| Confirmed (hash : string)
| Unconfirmed
| Threw (e : JsError).

(** The body of the [try]: nonce, gas, gas price, submission, receipt. *)
Definition try_submit (h : Hook) (a : Attempt) (fn : string) (amountWei : Z)
  : list Event * AttemptEnd :=
  let '(ev1, n) := getFreshNonce h a in
  match n with
  | Rejected e => (ev1, Threw e)
  | Resolved nonce_ =>
      let '(ev2, gas_) := estimateGasWithBuffer h a fn (pid h, amountWei) in
      match currentGasPrice a with
      | Rejected e => (ev1 ++ ev2 ++ [GetGasPrice], Threw e)
      | Resolved gasPrice_ =>
          let gasPriceWithPremium := (gasPrice_ * 130) ÷ 100 in
          let req := {| to := masterChef h; functionName := fn;
                        args := (pid h, amountWei); gas := gas_;
                        nonce := nonce_; gasPrice := gasPriceWithPremium |} in
          match written a with
          | Rejected e =>
              (ev1 ++ ev2 ++ [GetGasPrice; WriteContract req], Threw e)
          | Resolved hash_ =>
              let '(ev3, isConfirmed) := waitForTx h a hash_ 180000 in
              (ev1 ++ ev2 ++ [GetGasPrice; WriteContract req] ++ ev3,
               if isConfirmed then Confirmed hash_ else Unconfirmed)
          end
      end
  end.

(** [lastError.includes('dropped') || lastError.includes('replaced')
     || lastError.includes('nonce')]. *)
Definition retryable (lastError : string) : bool :=
  (Str.includes lastError "dropped" || Str.includes lastError "replaced"
   || Str.includes lastError "nonce")%bool.

(** The [for] loop of [stake] and of [unstake]: the two are the same text
    up to the contract function [fn] and the fallback message [dflt].
    [remaining] counts the iterations left, [attempt] is the loop
    variable. *)
Fixpoint submit_loop (h : Hook) (w : World) (fn dflt : string) (amountWei : Z)
         (retries : nat) (remaining : nat) (attempt : nat)
         (backoffMs : Z) (lastError : string) : list Event * TxResult :=
  match remaining with
  | O => ([], failed lastError)
  | S remaining' =>
      let '(evs, e) := try_submit h (attempt_at w attempt) fn amountWei in
      match e with
      | Confirmed hash_ => (LogAttempt attempt retries :: evs, succeeded hash_)
      | Unconfirmed =>
          let '(rest, r) :=
            submit_loop h w fn dflt amountWei retries remaining' (S attempt)
                        backoffMs "Transaction not confirmed in time" in
          (LogAttempt attempt retries :: evs ++ rest, r)
      | Threw err =>
          let lastError := first_present (shortMessage err) (message err) dflt in
          if retryable lastError then
            let '(rest, r) :=
              submit_loop h w fn dflt amountWei retries remaining' (S attempt)
                          (backoffMs * 2) lastError in
            (LogAttempt attempt retries :: evs
               ++ LogFailed attempt lastError :: Sleep backoffMs :: rest, r)
          else
            (LogAttempt attempt retries :: evs ++ [LogFailed attempt lastError],
             failed lastError)
      end
  end.

Inductive Outcome :=
| Returns (r : TxResult)
| Throws.                (* parseUnits threw: the promise rejects *)

(** Observations on a trace: the attempts begun, the delays slept, the
    transactions handed to the wallet. *)
Fixpoint count_attempts (evs : list Event) : nat :=
  match evs with
  | [] => O
  | LogAttempt _ _ :: r => S (count_attempts r)
  | _ :: r => count_attempts r
  end.

Fixpoint sleeps (evs : list Event) : list Z :=
  match evs with
  | [] => []
  | Sleep ms :: r => ms :: sleeps r
  | _ :: r => sleeps r
  end.

Fixpoint submissions (evs : list Event) : list WriteRequest :=
  match evs with
  | [] => []
  | WriteContract req :: r => req :: submissions r
  | _ :: r => submissions r
  end.

Section WithViem.

Variable parseUnits : string -> nat -> option Z.

Definition stake (h : Hook) (w : World) (amount : string) (retries : nat)
  : list Event * Outcome :=
  if disconnected h then ([], Returns (failed "Wallet not connected"))
  else if (negb (Str.truthy amount) || JS.le (JS.parseFloat amount) JS.pos_zero)%bool
  then ([], Returns (failed "Invalid amount"))
  else
    let '(ev0, isValid) := if poolVerified h then ([], true) else verifyPool h w in
    if negb isValid then
      (ev0, Returns (failed (or_string (poolError h) "Pool verification failed")))
    else
      match parseUnits amount 18 with
      | None => (ev0, Throws)
      | Some amountWei =>
          if (truthy_bigint (lpBalance h)
              && (match lpBalance h with Some b => b | None => 0 end <? amountWei)%Z)%bool
          then (ev0, Returns (failed "Insufficient LP balance"))
          else if (negb (truthy_bigint (allowance h))
                   || (match allowance h with Some a => a | None => 0 end <? amountWei)%Z)%bool
          then (ev0, Returns (failed "Please approve LP tokens first"))
          else
            let '(evs, r) :=
              submit_loop h w "deposit" "Stake failed" amountWei
                          retries retries 1 3000 "" in
            (ev0 ++ evs, Returns r)
      end.

Definition unstake (h : Hook) (w : World) (amount : string) (retries : nat)
  : list Event * Outcome :=
  if disconnected h then ([], Returns (failed "Wallet not connected"))
  else if (negb (Str.truthy amount) || JS.le (JS.parseFloat amount) JS.pos_zero)%bool
  then ([], Returns (failed "Invalid amount"))
  else
    match parseUnits amount 18 with
    | None => ([], Throws)
    | Some amountWei =>
        let '(evs, r) :=
          submit_loop h w "withdraw" "Unstake failed" amountWei
                      retries retries 1 3000 "" in
        (evs, Returns r)
    end.

Definition needsApproval (h : Hook) (amount : string) : bool :=
  if (negb (Str.truthy amount) || negb (truthy_bigint (allowance h)))%bool then true
  else
    match parseUnits amount 18 with
    | Some amountWei =>
        (match allowance h with Some a => a | None => 0 end <? amountWei)%Z
    | None => true
    end.

End WithViem.

(** *** Vocabulary for statements about traces *)



(** Calls to the chain and the wallet. *)
Definition is_call (e : Event) : Prop :=
  match e with
  | LogAttempt _ _ | LogFailed _ _ | Sleep _ => False
  | _ => True
  end.

(** Reads of the MasterChef contract. *)
Definition is_read (e : Event) : Prop :=
  match e with ReadContract _ => True | _ => False end.


(** One of the calls that can throw in the attempt [a] was rejected with
    [e]. *)
Definition rejects (a : Attempt) (e : JsError) : Prop :=
  transactionCount a = Rejected e
  \/ currentGasPrice a = Rejected e
  \/ written a = Rejected e.

(** The message that the [catch] block reads from the error thrown in
    attempt [k]. *)
Definition thrown_at (w : World) (dflt : string) (k : nat) (msg : string) : Prop :=
  exists e,
    rejects (attempt_at w k) e
    /\ msg = first_present (shortMessage e) (message e) dflt.

(** [n] delays starting at [backoffMs], each the double of the one
    before. *)
Definition backoff_delays (backoffMs : Z) (n : nat) : list Z :=
  map (fun i => backoffMs * 2 ^ Z.of_nat i) (seq 0 n).


(** The retry policy: at most [retries] attempts; delays of 3000 ms
    doubled each time; after an attempt that threw, either the next delay
    (a message with "dropped", "replaced" or "nonce") or nothing more and
    a failure with that message. *)
Definition retry_policy (w : World) (dflt : string) (retries : nat)
           (evs : list Event) (r : TxResult) : Prop :=
  (count_attempts evs <= retries)%nat
  /\ (exists n, (n <= retries)%nat /\ sleeps evs = backoff_delays 3000 n)
  /\ forall pre k msg post,
      evs = pre ++ LogFailed k msg :: post ->
      thrown_at w dflt k msg
      /\ if retryable msg
         then exists rest,
             post = Sleep (3000 * 2 ^ Z.of_nat (List.length (sleeps pre))) :: rest
         else post = [] /\ r = failed msg.


End Stake.

(** ** Sample pools, wallets and chains *)

Module Examples.

Import Config.
Local Open Scope string_scope.

(** A WMON/QUICK pool holding 1000.5 WMON and 2001 QUICK. *)
Definition pool : PoolRatio.PoolReserves :=
  {| PoolRatio.reserve0 := "1000.5"; PoolRatio.reserve1 := "2001";
     PoolRatio.totalSupply := "1414.9";
     PoolRatio.token0 := (Str.toLowerCase WMON, "WMON");
     PoolRatio.token1 := (Str.toLowerCase QUICK, "QUICK") |}.

(** An indexer that knows this pool only. *)
Definition subgraph : PoolRatio.Subgraph :=
  fun token0 token1 =>
    if ((token0 =? Str.toLowerCase WMON) && (token1 =? Str.toLowerCase QUICK))%bool
    then PoolRatio.Pairs [pool] else PoolRatio.Pairs [].

(** The hook after a fetch for the pair MON, QUICK. *)
Definition fetched : PoolRatio.State :=
  PoolRatio.fetchReserves (Some MON_TOKEN) (Some QUICK_TOKEN) subgraph
                          PoolRatio.initial.

Definition user : string := "0x1111111111111111111111111111111111111111".

Definition max_allowance : Z := 2 ^ 256 - 1.

(** A verified pool, a connected wallet, an unlimited allowance. *)
Definition staker (balance : option Z) : Stake.Hook :=
  {| Stake.walletClient := true; Stake.address := Some user;
     Stake.publicClient := true;
     Stake.masterChef := "0x1CF67a6Ac3E049E78E6BC22642126C6AB8511d03";
     Stake.lpToken := "0xcf4dc3db3223ee91ff52da4e110ba8abfb943843";
     Stake.pid := 0; Stake.poolVerified := true; Stake.poolError := None;
     Stake.allowance := Some max_allowance; Stake.lpBalance := balance |}.

Definition smooth : Stake.Attempt :=
  {| Stake.transactionCount := Rpc.Resolved 7;
     Stake.estimatedGas := Rpc.Resolved 100001;
     Stake.currentGasPrice := Rpc.Resolved 52000000001;
     Stake.written := Rpc.Resolved "0xabc";
     Stake.confirmed := true |}.


(** The deposit reverts: no estimate, a receipt that is not a success. *)
Definition reverting : Stake.Attempt :=
  {| Stake.transactionCount := Rpc.Resolved 7;
     Stake.estimatedGas := Rpc.Rejected (Rpc.Error "execution reverted");
     Stake.currentGasPrice := Rpc.Resolved 52000000001;
     Stake.written := Rpc.Resolved "0xdef";
     Stake.confirmed := false |}.

Definition chain (attempts : nat -> Stake.Attempt) : Stake.World :=
  {| Stake.poolLength := Rpc.Resolved 1;
     Stake.poolInfo := Rpc.Resolved ("0xcf4dc3db3223ee91ff52da4e110ba8abfb943843", 100);
     Stake.attempt_at := attempts |}.


(** Every submission reverts. *)
Definition hostile : Stake.World := chain (fun _ => reverting).

(** What [stake] does on the flaky chain, for one LP token out of five. *)
Definition flaky_request (gas_ : Z) : Stake.WriteRequest :=
  {| Stake.to := "0x1CF67a6Ac3E049E78E6BC22642126C6AB8511d03";
     Stake.functionName := "deposit"; Stake.args := (0, 10 ^ 18);
     Stake.gas := gas_; Stake.nonce := 7; Stake.gasPrice := 67600000001 |}.


End Examples.

(** ** hooks/useStake.ts: the polling loop of [waitForTx]

  [Stake.waitForTx] above takes the outcome of the wait from the chain's
  answers; here is the loop itself, on an explicit clock. *)

Module Receipt.

Inductive Status := success | reverted.

(** What [getTransactionReceipt] does at one poll. *)
Inductive Answer :=
| NotFound                     (* the call throws *)
| Nothing                      (* the call resolves to a falsy value *)
| Found (status : Status).

(** One poll: the time the call takes, its answer, and how late the timer
    fires after its 2000 ms. *)
Record Poll := {
  took : Z;
  answer : Answer;
  late : Z
}.

(** The loop; [i] counts the polls made, [now] is [Date.now()] at the
    loop test.  The result is the number of polls and the value returned;
    [None] when [fuel] iterations did not end the loop. *)
Fixpoint poll (fuel : nat) (chain : nat -> Poll) (i : nat)
         (now startTime timeoutMs : Z) : option (nat * bool) :=
  if (now - startTime <? timeoutMs)%Z then
    match fuel with
    | O => None
    | S fuel' =>
        match answer (chain i) with
        | Found status =>
            Some (S i, match status with success => true | reverted => false end)
        | _ =>
            poll fuel' chain (S i)
                 (now + took (chain i) + 2000 + late (chain i))
                 startTime timeoutMs
        end
    end
  else Some (i, false).

Definition default_timeout : Z := 120000.

Definition waitForTx (fuel : nat) (publicClient : bool) (chain : nat -> Poll)
           (startTime timeoutMs : Z) : option (nat * bool) :=
  if negb publicClient then Some (O, false)
  else poll fuel chain 0 startTime startTime timeoutMs.

(** The number of two-second steps that cover the timeout. *)
Definition steps (timeoutMs : Z) : nat := Z.to_nat ((timeoutMs + 1999) / 2000).

End Receipt.

(** ** hooks/useStake.ts: [approve] *)

Module StakeApprove.

Import Rpc.
Local Open Scope string_scope.
Local Open Scope list_scope.

Definition maxUint256 : Z := 2 ^ 256 - 1.

(** The argument of [walletClient.writeContract] for the LP token. *)
Record WriteRequest := {
  to : string;
  spender : string;
  amount : Z;
  gas : Z;
  nonce : Z
}.

Inductive Event :=
| GetTransactionCount (account : string) (blockTag : Stake.BlockTag)
| EstimateContractGas (token spender : string) (amount : Z)
| WriteContract (req : WriteRequest)
| WaitForTx (hash : string) (timeoutMs : Z)
| Sleep (ms : Z)
| RefetchAllowance.

(** What the [catch] block returns. *)
Definition caught (e : JsError) : Stake.TxResult :=
  Stake.failed (first_present (shortMessage e) (message e) "Approval failed").

(** [approve]: the answers of the chain and the wallet are those of one
    attempt; [refetched] is the error that [refetchAllowance] throws, if
    it throws. *)
Definition approve (h : Stake.Hook) (a : Stake.Attempt) (refetched : option JsError)
  : list Event * Stake.TxResult :=
  if Stake.disconnected h then ([], Stake.failed "Wallet not connected")
  else
    let unknown := (negb (Stake.publicClient h)
                    || negb (present (Stake.address h)))%bool in
    let '(ev1, n) :=
      if unknown then ([], Rejected (Error "Not connected"))
      else ([GetTransactionCount (Stake.account h) Stake.pending],
            Stake.transactionCount a) in
    match n with
    | Rejected e => (ev1, caught e)
    | Resolved nonce_ =>
        let '(ev2, gas_) :=
          if unknown then ([], 500000)
          else ([EstimateContractGas (Stake.lpToken h) (Stake.masterChef h) maxUint256],
                match Stake.estimatedGas a with
                | Resolved estimated => (estimated * 180) ÷ 100
                | Rejected _ => 500000
                end) in
        let req := {| to := Stake.lpToken h; spender := Stake.masterChef h;
                      amount := maxUint256; gas := gas_; nonce := nonce_ |} in
        match Stake.written a with
        | Rejected e => (ev1 ++ ev2 ++ [WriteContract req], caught e)
        | Resolved hash_ =>
            let '(ev3, isConfirmed) :=
              if negb (Stake.publicClient h) then ([], false)
              else ([WaitForTx hash_ Receipt.default_timeout], Stake.confirmed a) in
            if isConfirmed then
              (ev1 ++ ev2 ++ [WriteContract req] ++ ev3 ++ [Sleep 3000; RefetchAllowance],
               match refetched with
               | Some e => caught e
               | None => Stake.succeeded hash_
               end)
            else
              (ev1 ++ ev2 ++ [WriteContract req] ++ ev3,
               Stake.failed "Approval not confirmed")
        end
    end.

Fixpoint submissions (evs : list Event) : list WriteRequest :=
  match evs with
  | [] => []
  | WriteContract req :: r => req :: submissions r
  | _ :: r => submissions r
  end.

End StakeApprove.

(** ** Globals of the language used by the components *)

Module JSGlobals.

Definition isNaN (x : JS.number) : bool :=
  match x with
  | S754_nan => true
  | _ => false
  end.

(** [Math.min] of two numbers: NaN when either is, and -0 below +0. *)
Definition Math_min (x y : JS.number) : JS.number :=
  if (isNaN x || isNaN y)%bool then JS.NaN
  else if JS.lt x y then x
  else if JS.lt y x then y
  else match x with
       | S754_zero true => x
       | _ => y
       end.

End JSGlobals.

(** ** The stake modal *)

Module StakeModal.

Import Rpc.
Local Open Scope string_scope.
Local Open Scope list_scope.

Inductive Mode := stake | unstake.

Definition maxAmount (mode : Mode) (lpBalance stakedAmount : string) : string :=
  match mode with
  | stake => lpBalance
  | unstake => stakedAmount
  end.

Definition validateAmount (mode : Mode) (lpBalance stakedAmount amount : string)
  : option string :=
  if (negb (Str.truthy amount) || (amount =? ""))%bool then Some "Enter an amount"
  else
    let amountNum := JS.parseFloat amount in
    if (JSGlobals.isNaN amountNum || JS.le amountNum JS.pos_zero)%bool
    then Some "Amount must be greater than 0"
    else if JS.gt amountNum (JS.parseFloat (maxAmount mode lpBalance stakedAmount))
    then Some ("Insufficient "
                 ++ match mode with stake => "LP" | unstake => "staked" end
                 ++ " balance")%string
    else None.

(** What the handlers do: calls of the hook, and the modal's own wait and
    refetch after an approval. *)
Inductive Event :=
| InApprove (e : StakeApprove.Event)
| InStake (e : Stake.Event)
| InUnstake (e : Stake.Event)
| Sleep (ms : Z)
| RefetchAllowance.

Inductive Handled :=
| Ignored                                   (* the button is disabled *)
| Refused (validationError : string)
| Approved (r : Stake.TxResult)
| Staked (out : Stake.Outcome)
| Unstaked (out : Stake.Outcome).

(** The hook as the modal sees it, and the chain behind it. *)
Record Env := {
  hook : Stake.Hook;
  world : Stake.World;
  approval : Stake.Attempt;              (* the answers to [approve] *)
  refetched : option JsError;
  isPending : bool;
  isApproving : bool
}.

Section WithViem.

Variable parseUnits : string -> nat -> option Z.

Definition requiresApproval (env : Env) (mode : Mode) (amount : string) : bool :=
  match mode with
  | stake => Stake.needsApproval parseUnits (hook env) amount
  | unstake => false
  end.

Definition handleApprove (env : Env) : list Event * Handled :=
  let '(evs, result) := StakeApprove.approve (hook env) (approval env) (refetched env) in
  if Stake.success result
  then (map InApprove evs ++ [Sleep 2000; RefetchAllowance], Approved result)
  else (map InApprove evs, Approved result).

Definition handleStake (env : Env) (lpBalance stakedAmount amount : string)
  : list Event * Handled :=
  match validateAmount stake lpBalance stakedAmount amount with
  | Some validationError => ([], Refused validationError)
  | None =>
      let '(evs, out) :=
        Stake.stake parseUnits (hook env) (world env) amount Stake.default_retries in
      (map InStake evs, Staked out)
  end.

Definition handleUnstake (env : Env) (lpBalance stakedAmount amount : string)
  : list Event * Handled :=
  match validateAmount unstake lpBalance stakedAmount amount with
  | Some validationError => ([], Refused validationError)
  | None =>
      let '(evs, out) :=
        Stake.unstake parseUnits (hook env) (world env) amount Stake.default_retries in
      (map InUnstake evs, Unstaked out)
  end.

Definition handleSubmit (env : Env) (mode : Mode)
           (lpBalance stakedAmount amount : string) : list Event * Handled :=
  match mode with
  | stake =>
      if requiresApproval env mode amount then handleApprove env
      else handleStake env lpBalance stakedAmount amount
  | unstake => handleUnstake env lpBalance stakedAmount amount
  end.

(** [isLoading || (!!validationError && amount !== '')]. *)
Definition isDisabled (env : Env) (mode : Mode)
           (lpBalance stakedAmount amount : string) : bool :=
  (isPending env || isApproving env
   || (match validateAmount mode lpBalance stakedAmount amount with
       | Some validationError => Str.truthy validationError
       | None => false
       end && negb (amount =? "")))%bool.

(** A click on the submit button. *)
Definition click (env : Env) (mode : Mode)
           (lpBalance stakedAmount amount : string) : list Event * Handled :=
  if isDisabled env mode lpBalance stakedAmount amount then ([], Ignored)
  else handleSubmit env mode lpBalance stakedAmount amount.

End WithViem.

(** The requests handed to the wallet during a click. *)
Fixpoint deposits (evs : list Event) : list Stake.WriteRequest :=
  match evs with
  | [] => []
  | InStake (Stake.WriteContract req) :: r => req :: deposits r
  | InUnstake (Stake.WriteContract req) :: r => req :: deposits r
  | _ :: r => deposits r
  end.

Fixpoint approvals (evs : list Event) : list StakeApprove.WriteRequest :=
  match evs with
  | [] => []
  | InApprove (StakeApprove.WriteContract req) :: r => req :: approvals r
  | _ :: r => approvals r
  end.

End StakeModal.

(** ** The auto-ratio effect of AutoRatioInput and of the add-liquidity
    modal *)

Module AutoRatio.

Import Config.
Local Open Scope string_scope.

Inductive Side := SideA | SideB.          (* 'a' | 'b' *)

Inductive Update :=
| SetAmountA (value : string)
| SetAmountB (value : string).

(** The body of the effect past its first guard; the two components have
    the same text. *)
Definition auto_calculate (st : PoolRatio.State) (lastChanged : option Side)
           (amountA amountB : string) : option Update :=
  match lastChanged with
  | Some SideA =>
      if Str.truthy amountA then
        let calcB := PoolRatio.calculateAmountB st amountA in
        if (Str.truthy calcB && negb (calcB =? amountB))%bool
        then Some (SetAmountB calcB) else None
      else None
  | Some SideB =>
      if Str.truthy amountB then
        let calcA := PoolRatio.calculateAmountA st amountB in
        if (Str.truthy calcA && negb (calcA =? amountA))%bool
        then Some (SetAmountA calcA) else None
      else None
  | None => None
  end.

(** *** components/AutoRatioInput.tsx *)

Record InputState := {
  input_isLocked : bool;
  input_lastChanged : option Side
}.

Definition input_initial : InputState :=
  {| input_isLocked := true; input_lastChanged := None |}.

(** The handlers that the component binds: the lock toggle is the only
    one; [handleInputChange] is defined and discarded. *)
Inductive InputAction := ToggleLock.

Definition input_step (s : InputState) (action : InputAction) : InputState :=
  match action with
  | ToggleLock => {| input_isLocked := negb (input_isLocked s);
                     input_lastChanged := input_lastChanged s |}
  end.

(** The effect: which of [onAmountAChange], [onAmountBChange] it calls. *)
Definition input_effect (s : InputState) (st : PoolRatio.State) (disabled : bool)
           (amountA amountB : string) : option Update :=
  if (negb (input_isLocked s) || PoolRatio.loading st || disabled)%bool then None
  else auto_calculate st (input_lastChanged s) amountA amountB.

(** *** components/LiquidityCard.tsx: AddLiquidityModal *)

Record Form := {
  tokenA : Token;
  tokenB : Token;
  amountA : string;
  amountB : string;
  isLocked : bool;
  lastChanged : option Side
}.

Definition initial : Form :=
  {| tokenA := MON_TOKEN; tokenB := QUICK_TOKEN; amountA := ""; amountB := "";
     isLocked := true; lastChanged := None |}.

Definition setAmountA (v : string) (f : Form) : Form :=
  {| tokenA := tokenA f; tokenB := tokenB f; amountA := v; amountB := amountB f;
     isLocked := isLocked f; lastChanged := lastChanged f |}.
Definition setAmountB (v : string) (f : Form) : Form :=
  {| tokenA := tokenA f; tokenB := tokenB f; amountA := amountA f; amountB := v;
     isLocked := isLocked f; lastChanged := lastChanged f |}.
Definition setLastChanged (v : option Side) (f : Form) : Form :=
  {| tokenA := tokenA f; tokenB := tokenB f; amountA := amountA f;
     amountB := amountB f; isLocked := isLocked f; lastChanged := v |}.
Definition setTokenA (t : Token) (f : Form) : Form :=
  {| tokenA := t; tokenB := tokenB f; amountA := amountA f; amountB := amountB f;
     isLocked := isLocked f; lastChanged := lastChanged f |}.
Definition setTokenB (t : Token) (f : Form) : Form :=
  {| tokenA := tokenA f; tokenB := t; amountA := amountA f; amountB := amountB f;
     isLocked := isLocked f; lastChanged := lastChanged f |}.
Definition setIsLocked (v : bool) (f : Form) : Form :=
  {| tokenA := tokenA f; tokenB := tokenB f; amountA := amountA f;
     amountB := amountB f; isLocked := v; lastChanged := lastChanged f |}.

(** One run of the effect, for the pool state [st] of [usePoolRatio]. *)
Definition effect (st : PoolRatio.State) (f : Form) : Form :=
  if (negb (isLocked f) || PoolRatio.loading st)%bool then f
  else
    match auto_calculate st (lastChanged f) (amountA f) (amountB f) with
    | Some (SetAmountB calcB) => setAmountB calcB f
    | Some (SetAmountA calcA) => setAmountA calcA f
    | None => f
    end.

Definition handleAmountAChange (value : string) (f : Form) : Form :=
  setAmountA value (setLastChanged (Some SideA) f).

Definition handleAmountBChange (value : string) (f : Form) : Form :=
  setAmountB value (setLastChanged (Some SideB) f).

Definition handleSelectTokenA (token : Token) (f : Form) : Form :=
  let f1 := if address token =? address (tokenB f) then setTokenB (tokenA f) f else f in
  setAmountB "" (setAmountA "" (setTokenA token f1)).

Definition handleSelectTokenB (token : Token) (f : Form) : Form :=
  let f1 := if address token =? address (tokenA f) then setTokenA (tokenB f) f else f in
  setAmountB "" (setAmountA "" (setTokenB token f1)).

Definition toggleLock (f : Form) : Form := setIsLocked (negb (isLocked f)) f.

(** What happens to the form short of importing a token: typing, picking
    a listed token, toggling the lock, and a run of the effect for the
    pool state of the moment. *)
Inductive Action :=
| TypeA (value : string)
| TypeB (value : string)
| SelectA (token : Token)
| SelectB (token : Token)
| Toggle
| Render (st : PoolRatio.State).

Definition step (f : Form) (action : Action) : Form :=
  match action with
  | TypeA v => handleAmountAChange v f
  | TypeB v => handleAmountBChange v f
  | SelectA t => handleSelectTokenA t f
  | SelectB t => handleSelectTokenB t f
  | Toggle => toggleLock f
  | Render st => effect st f
  end.

End AutoRatio.

(** ** hooks/useRemoveLiquidity.ts, second part: [useFarmPools] *)

Module FarmData.

Import JS.
Local Open Scope string_scope.

(** The pair as the indexer returns it. *)
Record Pair := {
  reserve0 : option string;
  reserve1 : option string;
  totalSupply : option string
}.

Record FarmPoolData := {
  tvl : string;
  tvlUSD : number;
  apr : number;
  stakedAmount : string;
  pendingRewards : string;
  lpBalance : string;
  totalStaked : string
}.

(** [data?.field ? parseFloat(data.field) : dflt]. *)
Definition parsed_or (data : option Pair) (field : Pair -> option string)
           (dflt : number) : number :=
  match data with
  | Some p =>
      match field p with
      | Some v => if Str.truthy v then parseFloat v else dflt
      | None => dflt
      end
  | None => dflt
  end.

Definition quickPrice : number := of_decimal false 5 (-1).
Definition monPrice : number := of_Z 1.

Section WithViem.

Variable formatUnits : Z -> nat -> string.

(** [value ? formatUnits(value, 18) : '0']. *)
Definition formatted (value : option Z) : string :=
  match value with
  | Some v => if Rpc.truthy_bigint value then formatUnits v 18 else "0"
  | None => "0"
  end.

Definition useFarmPools (rewardPerBlock : number) (subgraphData : option Pair)
           (lpBalance_ : option Z) (userInfo : option (Z * Z))
           (pendingRewards_ totalStaked_ : option Z) : FarmPoolData :=
  let tvl_ := formatted totalStaked_ in
  let reserve0_ := parsed_or subgraphData reserve0 pos_zero in
  let reserve1_ := parsed_or subgraphData reserve1 pos_zero in
  let totalSupply_ := parsed_or subgraphData totalSupply (of_Z 1) in
  let lpPrice :=
    if gt totalSupply_ pos_zero
    then div (add (mul reserve0_ monPrice) (mul reserve1_ quickPrice)) totalSupply_
    else pos_zero in
  let tvlUSD_ := mul (parseFloat tvl_) lpPrice in
  let rewardPerYear :=
    div (mul (mul (mul (mul rewardPerBlock (of_Z 365)) (of_Z 24)) (of_Z 60)) (of_Z 60))
        (of_Z 2) in
  let apr_ :=
    if gt tvlUSD_ pos_zero
    then mul (div (mul rewardPerYear quickPrice) tvlUSD_) (of_Z 100)
    else pos_zero in
  {| tvl := tvl_;
     tvlUSD := tvlUSD_;
     apr := JSGlobals.Math_min apr_ (of_Z 999);
     stakedAmount := match userInfo with
                     | Some (amount, _) => formatUnits amount 18
                     | None => "0"
                     end;
     pendingRewards := formatted pendingRewards_;
     lpBalance := formatted lpBalance_;
     totalStaked := tvl_ |}.

End WithViem.

End FarmData.

(** ** hooks/useApproval.ts: [approve] *)

Module Approve.

Local Open Scope string_scope.

(** The argument of [writeContract]. *)
Record WriteRequest := {
  token : string;
  spender : string;
  amount : Z
}.

Inductive Outcome :=
| Returns                      (* nothing is written *)
| Throws                       (* [parseUnits] threw *)
| Writes (req : WriteRequest).

Section WithViem.

Variable parseUnits : string -> nat -> option Z.

(** [approve] of [useApproval]. *)
Definition approve (tokenAddress : option string) (decimals : nat)
           (spender_ : string) : Outcome :=
  match tokenAddress with
  | Some a =>
      if (negb (Str.truthy a) || Approval.isNative tokenAddress)%bool then Returns
      else
        match parseUnits "999999999999" decimals with
        | Some cap => Writes {| token := a; spender := spender_; amount := cap |}
        | None => Throws
        end
  | None => Returns
  end.

End WithViem.

End Approve.

(** ** More samples *)

Module Samples.

Import Config.
Local Open Scope string_scope.
Local Open Scope list_scope.

(** An indexer that cannot be reached. *)
Definition offline : PoolRatio.Subgraph :=
  fun _ _ => PoolRatio.Fails (Some "Failed to fetch").

(** A chain on which everything goes through at once. *)
Definition steady : Stake.World := Examples.chain (fun _ => Examples.smooth).

(** What [stake] does on the steady chain, for one LP token out of five. *)
Definition steady_run : list Stake.Event * Stake.Outcome :=
  ([Stake.LogAttempt 1 3;
    Stake.GetTransactionCount Examples.user Stake.pending;
    Stake.EstimateContractGas "deposit" (0, 10 ^ 18);
    Stake.GetGasPrice;
    Stake.WriteContract (Examples.flaky_request 180001);
    Stake.WaitForTx "0xabc" 180000],
   Stake.Returns (Stake.succeeded "0xabc")).

(** A receipt that shows up, a success, at the third poll; each call
    takes 300 ms and each timer fires 5 ms late. *)
Definition third_poll (i : nat) : Receipt.Poll :=
  {| Receipt.took := 300;
     Receipt.answer := if (i <? 2)%nat then Receipt.NotFound
                       else Receipt.Found Receipt.success;
     Receipt.late := 5 |}.

(** An estimator that always answers 210001. *)
Definition estimate : Liquidity.Estimator := fun _ _ => Some 210001.

(** A connected wallet with five LP tokens whose allowance has not been
    fetched. *)
Definition unapproved : Stake.Hook :=
  {| Stake.walletClient := true; Stake.address := Some Examples.user;
     Stake.publicClient := true;
     Stake.masterChef := "0x1CF67a6Ac3E049E78E6BC22642126C6AB8511d03";
     Stake.lpToken := "0xcf4dc3db3223ee91ff52da4e110ba8abfb943843";
     Stake.pid := 0; Stake.poolVerified := true; Stake.poolError := None;
     Stake.allowance := None; Stake.lpBalance := Some (5 * 10 ^ 18) |}.

End Samples.

(** * Properties *)

(** ** The runtime on known values *)

Section RuntimeChecks.

Import JS.
Local Open Scope string_scope.

Example parseFloat_tenth :
  parseFloat "0.1" = S754_finite false 7205759403792794 (-56).
Proof. vm_compute. reflexivity. Qed.

Example parseFloat_reads_a_prefix :
  parseFloat "  3.14abc" = parseFloat "3.14"
  /\ parseFloat "1e" = of_Z 1
  /\ parseFloat ".5" = parseFloat "0.5"
  /\ parseFloat "-0" = S754_zero true
  /\ parseFloat "" = NaN
  /\ parseFloat "." = NaN
  /\ parseFloat "abc" = NaN.
Proof. vm_compute. repeat split; reflexivity. Qed.

Example parseFloat_rounds_to_nearest_even :
  parseFloat "9007199254740993" = parseFloat "9007199254740992"
  /\ parseFloat "1.7976931348623159e308" = Infinity
  /\ parseFloat "2e-324" = pos_zero
  /\ parseFloat "3e-324" = S754_finite false 1 (-1074).
Proof. vm_compute. repeat split; reflexivity. Qed.

Example toFixed_samples :
  toFixed (parseFloat "1.005") 2 = "1.00"
  /\ toFixed (parseFloat "8.345") 2 = "8.35"
  /\ toFixed (parseFloat "2.5") 0 = "3"
  /\ toFixed (parseFloat "-0.000001") 2 = "-0.00"
  /\ toFixed (parseFloat "0.1") 20 = "0.10000000000000000555"
  /\ toFixed (parseFloat "1e21") 4 = "1e+21"
  /\ toFixed (parseFloat "1e23") 4 = "1e+23"
  /\ toFixed NaN 4 = "NaN".
Proof. vm_compute. repeat split; reflexivity. Qed.

Example toExponential_samples :
  toExponential (parseFloat "123.456") 4 = "1.2346e+2"
  /\ toExponential (parseFloat "0.00000012345") 4 = "1.2345e-7"
  /\ toExponential (parseFloat "9.99999e-7") 4 = "1.0000e-6"
  /\ toExponential pos_zero 4 = "0.0000e+0".
Proof. vm_compute. repeat split; reflexivity. Qed.

Example parseUnits_samples :
  Viem.parseUnits "1.5" 18 = Some 1500000000000000000
  /\ Viem.parseUnits "0.0000000000000000005" 18 = Some 1
  /\ Viem.parseUnits "0.0000000000000000001" 18 = Some 0
  /\ Viem.parseUnits "1.2345678" 6 = Some 1234568
  /\ Viem.parseUnits "1e5" 18 = None
  /\ Viem.parseUnits "" 18 = Some 0.
Proof. vm_compute. repeat split; reflexivity. Qed.

Example deadline_in_binary64 :
  Liquidity.deadline_binary64 0 = Some (Liquidity.deadline_at 0)
  /\ Liquidity.deadline_binary64 999 = Some (Liquidity.deadline_at 999)
  /\ Liquidity.deadline_binary64 1700000000999
     = Some (Liquidity.deadline_at 1700000000999)
  /\ Liquidity.deadline_binary64 1799999999999
     = Some (Liquidity.deadline_at 1799999999999)
  /\ Liquidity.deadline_binary64 8639999999999999
     = Some (Liquidity.deadline_at 8639999999999999)
  /\ Liquidity.deadline_at 1700000000999 = 1700001200.
Proof. vm_compute. repeat split; reflexivity. Qed.

Example includes_samples :
  Str.includes "transaction was dropped" "dropped" = true
  /\ Str.includes "Nonce too low" "nonce" = false
  /\ Stake.retryable "nonce too low" = true
  /\ Stake.retryable "User rejected the request" = false.
Proof. vm_compute. repeat split; reflexivity. Qed.

End RuntimeChecks.

(** ** Comparisons of binary64 numbers against zero *)

Section NumberFacts.

Import JS.

Lemma gt_zero_not_le (x : number) :
  gt x pos_zero = true -> le x pos_zero = false.
Proof.
  destruct x as [s | s | | s m e]; try destruct s; cbn; congruence.
Qed.

Lemma gt_zero_truthy (x : number) :
  gt x pos_zero = true -> or_else x pos_zero = x.
Proof.
  destruct x as [s | s | | s m e]; try destruct s; cbn; congruence.
Qed.

Lemma gt_zero_not_eq (x : number) :
  gt x pos_zero = true -> strict_eq x pos_zero = false.
Proof.
  destruct x as [s | s | | s m e]; try destruct s; cbn; congruence.
Qed.

Lemma eq_zero_or_else (x : number) :
  strict_eq x pos_zero = true -> or_else x pos_zero = pos_zero.
Proof.
  destruct x as [s | s | | s m e]; try destruct s; cbn; congruence.
Qed.

(** Only a non-empty string reads as a positive number. *)
Lemma positive_amount_truthy (a : string) :
  gt (parseFloat a) pos_zero = true -> Str.truthy a = true.
Proof.
  destruct a as [| c r]; [ cbn; discriminate | reflexivity ].
Qed.

End NumberFacts.

(** ** The ratio calculator *)

Section PoolRatioFacts.

Import JS Config PoolRatio.
Local Open Scope string_scope.

Lemma ratio_of_positive (st : State) :
  gt (parseFloat (reserveA st)) zero = true ->
  ratio st = div (reserveBNum st) (parseFloat (reserveA st)).
Proof.
  intros Ha. unfold ratio, reserveANum, zero in *.
  rewrite (gt_zero_truthy _ Ha). now rewrite Ha.
Qed.

Lemma reverseRatio_of_positive (st : State) :
  gt (parseFloat (reserveB st)) zero = true ->
  reverseRatio st = div (reserveANum st) (parseFloat (reserveB st)).
Proof.
  intros Hb. unfold reverseRatio, reserveBNum, zero in *.
  rewrite (gt_zero_truthy _ Hb). now rewrite Hb.
Qed.

(** C1. When the pool exists and both reserves are positive, each
    calculator returns the other side's amount at the pool's ratio,
    [a * (reserveB / reserveA)] and [b * (reserveA / reserveB)], rounded
    for display, for every input that reads as a positive number. *)
Theorem calculators_preserve_ratio (st : State) (a : string) :
  poolExists st = true ->
  gt (parseFloat (reserveA st)) zero = true ->
  gt (parseFloat (reserveB st)) zero = true ->
  gt (parseFloat a) zero = true ->
  calculateAmountB st a = spec_proportional a (reserveA st) (reserveB st)
  /\ calculateAmountA st a = spec_proportional a (reserveB st) (reserveA st).
Proof.
  intros Hpool Ha Hb Hpos.
  pose proof (positive_amount_truthy _ Hpos) as Htruthy.
  pose proof (gt_zero_not_le _ Hpos) as Hle.
  unfold calculateAmountB, calculateAmountA.
  unfold spec_proportional, spec_display, spec_display_digits.
  unfold zero in *.
  rewrite Htruthy, Hle, Hpool. cbn [negb orb].
  rewrite (ratio_of_positive _ Ha), (reverseRatio_of_positive _ Hb).
  unfold reserveANum, reserveBNum, zero.
  rewrite (gt_zero_truthy _ Ha), (gt_zero_truthy _ Hb).
  rewrite (gt_zero_not_eq _ Ha), (gt_zero_not_eq _ Hb).
  split.
  - destruct (lt _ millionth); [ reflexivity | ].
    destruct (lt _ one); [ reflexivity | ].
    destruct (lt _ thousand); reflexivity.
  - destruct (lt _ millionth); [ reflexivity | ].
    destruct (lt _ one); [ reflexivity | ].
    destruct (lt _ thousand); reflexivity.
Qed.

Lemma ratio_of_absent_or_zero (st : State) :
  poolExists st = false \/ strict_eq (parseFloat (reserveA st)) zero = true ->
  strict_eq (reserveANum st) zero = true /\ ratio st = one.
Proof.
  intros H.
  assert (Hz : strict_eq (parseFloat (reserveA st)) zero = true).
  { destruct H as [H | H]; [ | exact H ].
    unfold poolExists in H. unfold reserveA.
    destruct (reserves st); [ discriminate | reflexivity ]. }
  unfold ratio, reserveANum, zero in *.
  rewrite (eq_zero_or_else _ Hz). split; reflexivity.
Qed.

Lemma reverseRatio_of_absent_or_zero (st : State) :
  poolExists st = false \/ strict_eq (parseFloat (reserveB st)) zero = true ->
  strict_eq (reserveBNum st) zero = true /\ reverseRatio st = one.
Proof.
  intros H.
  assert (Hz : strict_eq (parseFloat (reserveB st)) zero = true).
  { destruct H as [H | H]; [ | exact H ].
    unfold poolExists in H. unfold reserveB.
    destruct (reserves st); [ discriminate | reflexivity ]. }
  unfold reverseRatio, reserveBNum, zero in *.
  rewrite (eq_zero_or_else _ Hz). split; reflexivity.
Qed.

(** C4. Without a pool (no reserves fetched, or the corresponding reserve
    zero) each calculator returns a positive input unchanged; an empty or
    non-positive input gives the empty string. *)
Theorem new_pool_is_one_to_one (st : State) (a : string) :
  (poolExists st = false \/ strict_eq (parseFloat (reserveA st)) zero = true ->
   gt (parseFloat a) zero = true -> calculateAmountB st a = a)
  /\ (poolExists st = false \/ strict_eq (parseFloat (reserveB st)) zero = true ->
      gt (parseFloat a) zero = true -> calculateAmountA st a = a)
  /\ (a = "" \/ le (parseFloat a) zero = true ->
      calculateAmountB st a = "" /\ calculateAmountA st a = "").
Proof.
  repeat split.
  - intros Hnew Hpos.
    destruct (ratio_of_absent_or_zero st Hnew) as [Hz _].
    unfold calculateAmountB. unfold zero in *.
    rewrite (positive_amount_truthy _ Hpos), (gt_zero_not_le _ Hpos), Hz.
    cbn [negb orb]. now rewrite orb_true_r.
  - intros Hnew Hpos.
    destruct (reverseRatio_of_absent_or_zero st Hnew) as [Hz _].
    unfold calculateAmountA. unfold zero in *.
    rewrite (positive_amount_truthy _ Hpos), (gt_zero_not_le _ Hpos), Hz.
    cbn [negb orb]. now rewrite orb_true_r.
  - unfold calculateAmountB.
    destruct H as [-> | ->]; [ reflexivity | now rewrite orb_true_r ].
  - unfold calculateAmountA.
    destruct H as [-> | ->]; [ reflexivity | now rewrite orb_true_r ].
Qed.

(** Sorting two distinct strings puts the first one in front exactly
    when it is the smaller. *)
Lemma sort2_first (x y : string) :
  x <> y -> (x =? fst (Str.sort2 x y)) = (x <? y).
Proof.
  intros Hne. unfold Str.sort2, String.ltb.
  pose proof (String.compare_antisym y x) as Hanti.
  destruct (String.compare x y) eqn:E; cbn in Hanti; rewrite Hanti; cbn.
  - apply String.compare_eq_iff in E. contradiction.
  - apply String.eqb_refl.
  - now apply String.eqb_neq.
Qed.

Lemma sort2_ordered (x y : string) :
  x <> y ->
  (fst (Str.sort2 x y) <? snd (Str.sort2 x y)) = true
  /\ Str.sort2 x y = (if x <? y then (x, y) else (y, x)).
Proof.
  intros Hne. unfold Str.sort2, String.ltb.
  pose proof (String.compare_antisym y x) as Hanti.
  destruct (String.compare x y) eqn:E; cbn in Hanti; rewrite Hanti; cbn.
  - apply String.compare_eq_iff in E. contradiction.
  - now rewrite E.
  - now rewrite Hanti.
Qed.

(** C3. The pair is looked up under its two effective addresses in
    lexicographic order, token0 the smaller; the reserves that come back
    are read as [reserveA = reserve0] exactly when tokenA's address is the
    smaller; the ratio is [reserveB / reserveA] when [reserveA] is
    positive and 1 when it is zero or the pool is absent, and
    [reverseRatio] likewise from [reserveB]. *)
Theorem reserves_follow_canonical_order
        (tA tB : Token) (subgraph : Subgraph) (st : State)
        (r : PoolReserves) (others : list PoolReserves) :
  let addressA := getActualAddress tA in
  let addressB := getActualAddress tB in
  let token0Addr := if addressA <? addressB then addressA else addressB in
  let token1Addr := if addressA <? addressB then addressB else addressA in
  let st' := fetchReserves (Some tA) (Some tB) subgraph st in
  addressA <> addressB ->
  subgraph token0Addr token1Addr = Pairs (r :: others) ->
  Str.sort2 addressA addressB = (token0Addr, token1Addr)
  /\ (token0Addr <? token1Addr) = true
  /\ reserves st' = Some r
  /\ isTokenAFirst st' = (addressA <? addressB)
  /\ reserveA st' = (if addressA <? addressB then reserve0 r else reserve1 r)
  /\ reserveB st' = (if addressA <? addressB then reserve1 r else reserve0 r)
  /\ (forall s : State,
        (gt (parseFloat (reserveA s)) zero = true ->
         ratio s = div (reserveBNum s) (parseFloat (reserveA s)))
        /\ (poolExists s = false \/ strict_eq (parseFloat (reserveA s)) zero = true ->
            ratio s = one)
        /\ (gt (parseFloat (reserveB s)) zero = true ->
            reverseRatio s = div (reserveANum s) (parseFloat (reserveB s)))
        /\ (poolExists s = false \/ strict_eq (parseFloat (reserveB s)) zero = true ->
            reverseRatio s = one)).
Proof.
  intros addressA addressB token0Addr token1Addr st' Hne Hreply.
  destruct (sort2_ordered addressA addressB Hne) as [Hlt Hsort].
  pose proof (sort2_first addressA addressB Hne) as Hfirst.
  assert (Hs : Str.sort2 addressA addressB = (token0Addr, token1Addr)).
  { rewrite Hsort. subst token0Addr token1Addr.
    destruct (addressA <? addressB); reflexivity. }
  assert (Hst : reserves st' = Some r /\ isTokenAFirst st' = (addressA <? addressB)).
  { subst st'. unfold fetchReserves. fold addressA addressB.
    apply String.eqb_neq in Hne. rewrite Hne.
    rewrite Hs in Hfirst |- *. cbn [fst] in Hfirst.
    rewrite Hreply. cbn. now rewrite Hfirst. }
  destruct Hst as [Hres Hflag].
  split; [ exact Hs | ].
  split; [ rewrite Hs in Hlt; exact Hlt | ].
  split; [ exact Hres | ].
  split; [ exact Hflag | ].
  split; [ unfold reserveA; now rewrite Hres, Hflag | ].
  split; [ unfold reserveB; now rewrite Hres, Hflag | ].
  intros s. repeat split.
  - apply ratio_of_positive.
  - intros H. apply (ratio_of_absent_or_zero s H).
  - apply reverseRatio_of_positive.
  - intros H. apply (reverseRatio_of_absent_or_zero s H).
Qed.

End PoolRatioFacts.

(** ** The approval gate of [useApproval] *)

Section ApprovalFacts.

Import JS Approval.
Local Open Scope string_scope.

Variable parseUnits : string -> nat -> option Z.



End ApprovalFacts.

(** ** Deadlines and minimum amounts of the liquidity hooks *)

Section LiquidityFacts.

Import Config Liquidity.
Local Open Scope string_scope.

Variable parseUnits : string -> nat -> option Z.

Lemma write_with_estimate_call (estimate : Estimator) (c : RouterCall)
      (v : option Z) (req : WriteRequest) :
  write_with_estimate estimate c v = Writes req ->
  call req = c /\ value req = v.
Proof.
  unfold write_with_estimate.
  destruct (estimate c v); intros H; injection H as <-; now split.
Qed.

Lemma write_with_estimate_writes (estimate : Estimator) (c : RouterCall)
      (v : option Z) :
  exists req, write_with_estimate estimate c v = Writes req.
Proof.
  unfold write_with_estimate. destruct (estimate c v); eexists; reflexivity.
Qed.

(** What [addLiquidity] submits, branch by branch. *)
Lemma addLiquidity_writes
      (address : option string) (client : option Estimator) (tokenA tokenB : Token)
      (slippage now : Z) (amountA amountB : string) (req : WriteRequest) :
  addLiquidity parseUnits address client tokenA tokenB slippage now amountA amountB
  = Writes req ->
  exists account amountAWei amountBWei,
    address = Some account
    /\ parseUnits amountA (decimals tokenA) = Some amountAWei
    /\ parseUnits amountB (decimals tokenB) = Some amountBWei
    /\ let m := 100 - slippage in
       let d := deadline_at now in
       if is_native tokenA then
         call req = AddLiquidityETH (Config.address tokenB) amountBWei
                      ((amountBWei * m) ÷ 100) ((amountAWei * m) ÷ 100) account d
         /\ value req = Some amountAWei
       else if is_native tokenB then
         call req = AddLiquidityETH (Config.address tokenA) amountAWei
                      ((amountAWei * m) ÷ 100) ((amountBWei * m) ÷ 100) account d
         /\ value req = Some amountBWei
       else
         call req = AddLiquidity (Config.address tokenA) (Config.address tokenB)
                      amountAWei amountBWei
                      ((amountAWei * m) ÷ 100) ((amountBWei * m) ÷ 100) account d
         /\ value req = None.
Proof.
  unfold addLiquidity.
  destruct address as [account |]; [ | discriminate ].
  destruct client as [estimate |]; [ | discriminate ].
  destruct (negb (Str.truthy account)); [ discriminate | ].
  match goal with |- (if ?c then _ else _) = _ -> _ => destruct c end;
    [ discriminate | ].
  destruct (parseUnits amountA (decimals tokenA)) as [amountAWei |];
    [ | discriminate ].
  destruct (parseUnits amountB (decimals tokenB)) as [amountBWei |];
    [ | discriminate ].
  intros H. exists account, amountAWei, amountBWei.
  repeat (split; [ reflexivity | ]).
  cbv zeta.
  destruct (is_native tokenA); cbn [orb] in H.
  - now apply write_with_estimate_call in H.
  - destruct (is_native tokenB); now apply write_with_estimate_call in H.
Qed.

(** What [removeLiquidity] submits, branch by branch. *)
Lemma removeLiquidity_writes
      (address : option string) (client : option Estimator) (slippage now : Z)
      (lpAmount : Z) (token0Address token1Address : string)
      (minAmount0 minAmount1 : Z) (hasWMON : bool) (req : WriteRequest) :
  removeLiquidity address client slippage now lpAmount token0Address token1Address
                  minAmount0 minAmount1 hasWMON = Writes req ->
  exists account,
    address = Some account
    /\ let m := 100 - slippage in
       let d := deadline_at now in
       let minOut0 := (minAmount0 * m) ÷ 100 in
       let minOut1 := (minAmount1 * m) ÷ 100 in
       if hasWMON then
         if Str.toLowerCase token0Address =? Str.toLowerCase WMON then
           call req = RemoveLiquidityETH token1Address lpAmount minOut1 minOut0 account d
         else
           call req = RemoveLiquidityETH token0Address lpAmount minOut0 minOut1 account d
       else
         call req = RemoveLiquidity token0Address token1Address lpAmount
                      minOut0 minOut1 account d.
Proof.
  unfold removeLiquidity.
  destruct address as [account |]; [ | discriminate ].
  destruct client as [estimate |]; [ | discriminate ].
  destruct (negb (Str.truthy account)); [ discriminate | ].
  destruct (lpAmount <=? 0)%Z; [ discriminate | ].
  intros H. exists account. split; [ reflexivity | ]. cbv zeta.
  destruct hasWMON.
  - destruct (Str.toLowerCase token0Address =? Str.toLowerCase WMON);
      now apply write_with_estimate_call in H.
  - now apply write_with_estimate_call in H.
Qed.

(** C8. Whatever branch is taken, the transaction that [addLiquidity] or
    [removeLiquidity] submits carries the deadline "clock in whole
    seconds plus 1200"; and a connected wallet with valid amounts does
    submit. *)
Theorem deadline_is_twenty_minutes_ahead :
  (forall address client tokenA tokenB slippage now amountA amountB req,
      addLiquidity parseUnits address client tokenA tokenB slippage now
                   amountA amountB = Writes req ->
      deadline_of (call req) = now / 1000 + 1200)
  /\ (forall address client slippage now lpAmount token0 token1 min0 min1 hasWMON req,
         removeLiquidity address client slippage now lpAmount token0 token1
                         min0 min1 hasWMON = Writes req ->
         deadline_of (call req) = now / 1000 + 1200)
  /\ (forall account estimate slippage now lpAmount token0 token1 min0 min1 hasWMON,
         Str.truthy account = true -> 0 < lpAmount ->
         exists req,
           removeLiquidity (Some account) (Some estimate) slippage now lpAmount
                           token0 token1 min0 min1 hasWMON = Writes req)
  /\ (forall account estimate tokenA tokenB slippage now amountA amountB wA wB,
         Str.truthy account = true ->
         JS.gt (JS.parseFloat amountA) JS.pos_zero = true ->
         JS.gt (JS.parseFloat amountB) JS.pos_zero = true ->
         parseUnits amountA (decimals tokenA) = Some wA ->
         parseUnits amountB (decimals tokenB) = Some wB ->
         exists req,
           addLiquidity parseUnits (Some account) (Some estimate) tokenA tokenB
                        slippage now amountA amountB = Writes req).
Proof.
  split; [ | split; [ | split ] ].
  - intros * H. apply addLiquidity_writes in H.
    destruct H as (account & wA & wB & _ & _ & _ & H). cbv zeta in H.
    destruct (is_native tokenA); [ | destruct (is_native tokenB) ];
      destruct H as [-> _]; reflexivity.
  - intros * H. apply removeLiquidity_writes in H.
    destruct H as (account & _ & H). cbv zeta in H.
    destruct hasWMON;
      [ destruct (Str.toLowerCase token0 =? Str.toLowerCase WMON) | ];
      rewrite H; reflexivity.
  - intros * Hacc Hlp. unfold removeLiquidity. rewrite Hacc. cbn [negb].
    destruct (Z.leb_spec lpAmount 0); [ lia | ].
    destruct hasWMON; apply write_with_estimate_writes.
  - intros * Hacc HA HB HwA HwB. unfold addLiquidity.
    rewrite Hacc, HwA, HwB.
    rewrite (positive_amount_truthy _ HA), (positive_amount_truthy _ HB).
    rewrite (gt_zero_not_le _ HA), (gt_zero_not_le _ HB). cbn [negb orb].
    destruct (is_native tokenA || is_native tokenB)%bool;
      apply write_with_estimate_writes.
Qed.



End LiquidityFacts.

(** ** The transaction submitter of [useStake] *)

Section TraceFacts.

Import Rpc Stake.




End TraceFacts.

Section SubmitLoopFacts.

Import Rpc Stake.
Local Open Scope string_scope.
Local Open Scope list_scope.

Variables (h : Hook) (w : World) (fn dflt : string) (amountWei : Z) (retries : nat).

Hypothesis Hconnected : disconnected h = false.

Lemma connected_parts :
  publicClient h = true /\ present (address h) = true.
Proof.
  unfold disconnected in Hconnected.
  destruct (walletClient h), (present (address h)), (publicClient h);
    cbn in Hconnected; try discriminate; now split.
Qed.

Lemma try_submit_calls (a : Attempt) :
  Forall is_call (fst (try_submit h a fn amountWei)).
Proof.
  destruct connected_parts as [Hpc Haddr].
  unfold try_submit, getFreshNonce, estimateGasWithBuffer, waitForTx.
  rewrite Hpc, Haddr. cbn [negb orb].
  destruct (transactionCount a); cbn; [ | repeat constructor ].
  destruct (currentGasPrice a); cbn; [ | repeat constructor ].
  destruct (written a); cbn; repeat constructor.
Qed.




Lemma sleeps_calls (l : list Event) : Forall is_call l -> sleeps l = [].
Proof.
  induction 1 as [| x l Hx _ IH]; [ reflexivity | ].
  destruct x; cbn in *; try contradiction; exact IH.
Qed.

Lemma count_attempts_calls (l : list Event) :
  Forall is_call l -> count_attempts l = O.
Proof.
  induction 1 as [| x l Hx _ IH]; [ reflexivity | ].
  destruct x; cbn in *; try contradiction; exact IH.
Qed.

Lemma sleeps_app (l1 l2 : list Event) : sleeps (l1 ++ l2) = sleeps l1 ++ sleeps l2.
Proof.
  induction l1 as [| x l1 IH]; [ reflexivity | ].
  destruct x; cbn; rewrite IH; reflexivity.
Qed.

Lemma count_attempts_app (l1 l2 : list Event) :
  count_attempts (l1 ++ l2) = (count_attempts l1 + count_attempts l2)%nat.
Proof.
  induction l1 as [| x l1 IH]; [ reflexivity | ].
  destruct x; cbn; rewrite IH; reflexivity.
Qed.





End SubmitLoopFacts.

Section StakeFacts.

Import Rpc Stake.
Local Open Scope string_scope.
Local Open Scope list_scope.

Variable parseUnits : string -> nat -> option Z.

Lemma verifyPool_reads (h : Hook) (w : World) :
  Forall is_read (fst (verifyPool h w)).
Proof.
  unfold verifyPool.
  destruct (publicClient h); cbn; [ | constructor ].
  destruct (poolLength w) as [len | e]; cbn; [ | repeat constructor ].
  destruct (len <=? pid h)%Z; cbn; [ repeat constructor | ].
  destruct (poolInfo w) as [[lp alloc] | e]; cbn; repeat constructor.
Qed.


Lemma reads_submit_nothing (l : list Event) :
  Forall is_read l -> submissions l = [].
Proof.
  induction 1 as [| x l Hx _ IH]; [ reflexivity | ].
  destruct x; cbn in *; try contradiction; exact IH.
Qed.









(** C10. [needsApproval] of the stake hook answers [true] for an empty
    amount, for an allowance that was not fetched and for an amount that
    does not parse; it answers [false] only for a fetched allowance that
    covers the parsed amount. *)
Theorem stake_needsApproval_fails_safe (h : Hook) (amount : string) :
  (amount = "" -> needsApproval parseUnits h amount = true)
  /\ (allowance h = None -> needsApproval parseUnits h amount = true)
  /\ (parseUnits amount 18 = None -> needsApproval parseUnits h amount = true)
  /\ (needsApproval parseUnits h amount = false ->
      exists a amountWei,
        allowance h = Some a /\ parseUnits amount 18 = Some amountWei
        /\ amountWei <= a).
Proof.
  unfold needsApproval. repeat split.
  - intros ->. reflexivity.
  - intros ->. cbn. now rewrite orb_true_r.
  - intros ->. now destruct (_ || _)%bool.
  - destruct (allowance h) as [a |].
    + destruct (negb (Str.truthy amount) || negb (truthy_bigint (Some a)))%bool;
        [ discriminate | ].
      destruct (parseUnits amount 18) as [amountWei |]; [ | discriminate ].
      intros Hlt. apply Z.ltb_ge in Hlt. exists a, amountWei. now repeat split.
    + cbn [truthy_bigint negb]. rewrite orb_true_r. discriminate.
Qed.

End StakeFacts.

(** ** The guards of [stake] *)

Section StakeGuards.

Import Rpc Stake.
Local Open Scope string_scope.
Local Open Scope list_scope.

Variable parseUnits : string -> nat -> option Z.

(** X8. The allowance gate: without a fetched allowance, or with one below
    the amount in base units, [stake] submits nothing and does not
    succeed. *)
Lemma stake_without_allowance_submits_nothing
      (h : Hook) (w : World) (amount : string) (retries : nat)
      (evs : list Event) (out : Outcome) :
  allowance h = None
  \/ (exists a amountWei,
         allowance h = Some a /\ parseUnits amount 18 = Some amountWei
         /\ a < amountWei) ->
  stake parseUnits h w amount retries = (evs, out) ->
  submissions evs = []
  /\ (out = Throws \/ exists msg, out = Returns (failed msg)).
Proof.
  intros Hallow. unfold stake.
  destruct (disconnected h).
  { intros H; injection H as <- <-. split; [ reflexivity | right; eauto ]. }
  match goal with |- (if ?c then _ else _) = _ -> _ => destruct c end.
  { intros H; injection H as <- <-. split; [ reflexivity | right; eauto ]. }
  assert (Hev0 : Forall is_read
                  (fst (if poolVerified h then ([], true) else verifyPool h w))).
  { destruct (poolVerified h); [ constructor | apply verifyPool_reads ]. }
  destruct (if poolVerified h then ([], true) else verifyPool h w)
    as [ev0 isValid]. cbn [fst] in Hev0.
  apply reads_submit_nothing in Hev0.
  destruct isValid; cbn [negb].
  2:{ intros H; injection H as <- <-. split; [ assumption | right; eauto ]. }
  destruct (parseUnits amount 18) as [amountWei |] eqn:Hparse.
  2:{ intros H; injection H as <- <-. split; [ assumption | now left ]. }
  match goal with |- (if ?c then _ else _) = _ -> _ => destruct c end.
  { intros H; injection H as <- <-. split; [ assumption | right; eauto ]. }
  assert (Hgate : (negb (truthy_bigint (allowance h))
                   || (match allowance h with Some a => a | None => 0 end
                       <? amountWei)%Z)%bool = true).
  { destruct Hallow as [-> | (a & w' & -> & Hw' & Hlt)]; [ reflexivity | ].
    injection Hw' as <-. apply orb_true_iff. right. now apply Z.ltb_lt. }
  rewrite Hgate.
  intros H; injection H as <- <-. split; [ assumption | right; eauto ].
Qed.

(** X9. The balance gate, as far as it goes: a fetched balance that is not
    zero and is below the amount stops [stake]. *)
Lemma stake_with_short_balance_submits_nothing
      (h : Hook) (w : World) (amount : string) (retries : nat)
      (evs : list Event) (out : Outcome) (b amountWei : Z) :
  lpBalance h = Some b -> b <> 0 ->
  parseUnits amount 18 = Some amountWei -> b < amountWei ->
  stake parseUnits h w amount retries = (evs, out) ->
  submissions evs = []
  /\ exists msg, out = Returns (failed msg).
Proof.
  intros Hb Hnz Hparse Hlt. unfold stake.
  destruct (disconnected h).
  { intros H; injection H as <- <-. split; [ reflexivity | eauto ]. }
  match goal with |- (if ?c then _ else _) = _ -> _ => destruct c end.
  { intros H; injection H as <- <-. split; [ reflexivity | eauto ]. }
  assert (Hev0 : Forall is_read
                  (fst (if poolVerified h then ([], true) else verifyPool h w))).
  { destruct (poolVerified h); [ constructor | apply verifyPool_reads ]. }
  destruct (if poolVerified h then ([], true) else verifyPool h w)
    as [ev0 isValid]. cbn [fst] in Hev0.
  apply reads_submit_nothing in Hev0.
  destruct isValid; cbn [negb].
  2:{ intros H; injection H as <- <-. split; [ assumption | eauto ]. }
  rewrite Hparse, Hb. cbn [truthy_bigint].
  apply Z.eqb_neq in Hnz. apply Z.ltb_lt in Hlt. rewrite Hnz, Hlt. cbn [negb andb].
  intros H; injection H as <- <-. split; [ assumption | eauto ].
Qed.

(** A balance of zero does not stop [stake]: with a verified pool and an
    allowance that covers the amount, the loop is entered. *)
Lemma stake_with_zero_balance_enters_the_loop
      (h : Hook) (w : World) (amount : string) (retries : nat) (a amountWei : Z) :
  disconnected h = false -> poolVerified h = true ->
  JS.gt (JS.parseFloat amount) JS.pos_zero = true ->
  parseUnits amount 18 = Some amountWei ->
  lpBalance h = Some 0 ->
  allowance h = Some a -> a <> 0 -> amountWei <= a ->
  stake parseUnits h w amount retries
  = (fst (submit_loop h w "deposit" "Stake failed" amountWei retries retries 1 3000 ""),
     Returns (snd (submit_loop h w "deposit" "Stake failed" amountWei
                               retries retries 1 3000 ""))).
Proof.
  intros Hconn Hver Hpos Hparse Hbal Hallow Hnz Hle. unfold stake.
  rewrite Hconn, Hver, Hparse, Hbal, Hallow.
  rewrite (positive_amount_truthy _ Hpos), (gt_zero_not_le _ Hpos).
  cbn [negb orb andb truthy_bigint Z.eqb].
  apply Z.eqb_neq in Hnz. rewrite Hnz.
  apply Z.ltb_ge in Hle. rewrite Hle. cbn [negb orb app].
  now destruct (submit_loop _ _ _ _ _ _ _ _ _ _).
Qed.

End StakeGuards.

(** ** Runs on the sample chains *)

Section Runs.

Import Rpc Stake Examples.
Local Open Scope string_scope.
Local Open Scope list_scope.

(** C7, at a balance of zero.  The wallet holds no LP tokens and asks to
    stake one: the balance check is skipped, three deposits are handed to
    the wallet, and the result does not mention the balance. *)
Theorem stake_with_zero_balance_submits :
  lpBalance (staker (Some 0)) = Some 0
  /\ Viem.parseUnits "1" 18 = Some (10 ^ 18)
  /\ List.length
       (submissions
          (fst (stake Viem.parseUnits (staker (Some 0)) hostile "1" default_retries)))
     = 3%nat
  /\ snd (stake Viem.parseUnits (staker (Some 0)) hostile "1" default_retries)
     = Returns (failed "Transaction not confirmed in time").
Proof.
  vm_compute. repeat split; reflexivity.
Qed.

(** The same request with a balance of one base unit is refused. *)
Example stake_with_short_balance_is_refused :
  stake Viem.parseUnits (staker (Some 1)) hostile "1" default_retries
  = ([], Returns (failed "Insufficient LP balance")).
Proof.
  vm_compute. reflexivity.
Qed.

(** A submission that is not confirmed in time is followed by the next
    attempt without a delay. *)
Example unconfirmed_is_retried_without_delay :
  count_attempts
    (fst (unstake Viem.parseUnits (staker None) hostile "1" default_retries))
  = 3%nat
  /\ sleeps (fst (unstake Viem.parseUnits (staker None) hostile "1" default_retries))
     = [].
Proof.
  vm_compute. split; reflexivity.
Qed.

Example calculateAmountB_sample :
  PoolRatio.calculateAmountB fetched "1.5" = "3.000000"
  /\ PoolRatio.calculateAmountA fetched "1.5" = "0.75000000"
  /\ PoolRatio.calculateAmountB fetched "0.0000001" = "2.0000e-7"
  /\ PoolRatio.calculateAmountB PoolRatio.initial "12" = "12".
Proof.
  vm_compute. repeat split; reflexivity.
Qed.

End Runs.

(** ** The theorems at work on the samples *)

Section Instances.

Import Rpc Examples.
Local Open Scope string_scope.
Local Open Scope list_scope.

(** The calculators on the sample pool: 1.5 MON asks for 3 QUICK. *)
Lemma calculators_preserve_ratio_witness :
  (PoolRatio.poolExists fetched = true
   /\ JS.gt (JS.parseFloat (PoolRatio.reserveA fetched)) PoolRatio.zero = true
   /\ JS.gt (JS.parseFloat (PoolRatio.reserveB fetched)) PoolRatio.zero = true
   /\ JS.gt (JS.parseFloat "1.5") PoolRatio.zero = true)
  /\ PoolRatio.calculateAmountB fetched "1.5"
     = PoolRatio.spec_proportional "1.5" (PoolRatio.reserveA fetched)
                              (PoolRatio.reserveB fetched)
  /\ PoolRatio.calculateAmountA fetched "1.5"
     = PoolRatio.spec_proportional "1.5" (PoolRatio.reserveB fetched)
                              (PoolRatio.reserveA fetched).
Proof.
  assert (H : PoolRatio.poolExists fetched = true
              /\ JS.gt (JS.parseFloat (PoolRatio.reserveA fetched)) PoolRatio.zero = true
              /\ JS.gt (JS.parseFloat (PoolRatio.reserveB fetched)) PoolRatio.zero = true
              /\ JS.gt (JS.parseFloat "1.5") PoolRatio.zero = true).
  { repeat split; vm_compute; reflexivity. }
  split; [ exact H | ].
  destruct H as (H1 & H2 & H3 & H4).
  exact (calculators_preserve_ratio fetched "1.5" H1 H2 H3 H4).
Defined.

(** The ordering for the pair MON, QUICK: WMON's address is the smaller, so
    [reserveA] is [reserve0]. *)
Lemma reserves_follow_canonical_order_witness :
  (PoolRatio.getActualAddress Config.MON_TOKEN
   <> PoolRatio.getActualAddress Config.QUICK_TOKEN
   /\ subgraph (Str.toLowerCase Config.WMON) (Str.toLowerCase Config.QUICK)
      = PoolRatio.Pairs [pool])
  /\ PoolRatio.reserveA fetched = "1000.5"
  /\ PoolRatio.reserveB fetched = "2001".
Proof.
  assert (Hne : PoolRatio.getActualAddress Config.MON_TOKEN
                <> PoolRatio.getActualAddress Config.QUICK_TOKEN).
  { vm_compute. discriminate. }
  assert (Hreply : subgraph (Str.toLowerCase Config.WMON) (Str.toLowerCase Config.QUICK)
                   = PoolRatio.Pairs [pool]).
  { vm_compute. reflexivity. }
  split; [ now split | ].
  destruct (reserves_follow_canonical_order
              Config.MON_TOKEN Config.QUICK_TOKEN subgraph PoolRatio.initial
              pool [] Hne Hreply)
    as (_ & _ & _ & _ & HA & HB & _).
  unfold fetched.
  split; [ rewrite HA | rewrite HB ]; vm_compute; reflexivity.
Defined.





End Instances.

(** * Further properties of the hooks *)

(** ** Fetching reserves *)

Section FetchFacts.

Import JS Config PoolRatio.
Local Open Scope string_scope.

Lemma sort2_swap (x y : string) :
  x <> y -> Str.sort2 x y = Str.sort2 y x.
Proof.
  intros Hne.
  destruct (sort2_ordered x y Hne) as [_ ->].
  destruct (sort2_ordered y x (not_eq_sym Hne)) as [_ ->].
  unfold String.ltb.
  pose proof (String.compare_antisym y x) as Hanti.
  destruct (String.compare x y) eqn:E; cbn in Hanti; rewrite Hanti; cbn;
    try reflexivity.
  apply String.compare_eq_iff in E. contradiction.
Qed.

(** What a fetch for two distinct addresses leaves behind, reply by
    reply. *)
Lemma fetchReserves_distinct (tA tB : Token) (subgraph : Subgraph) (st : State) :
  getActualAddress tA <> getActualAddress tB ->
  let addressA := getActualAddress tA in
  let addressB := getActualAddress tB in
  let st' := fetchReserves (Some tA) (Some tB) subgraph st in
  isTokenAFirst st' = (addressA <? addressB)
  /\ loading st' = false
  /\ match subgraph (fst (Str.sort2 addressA addressB))
                    (snd (Str.sort2 addressA addressB)) with
     | Errors msg => reserves st' = reserves st /\ error st' = Some msg
     | Pairs (p :: _) => reserves st' = Some p /\ error st' = None
     | Pairs [] =>
         reserves st' = None
         /\ error st' = Some "Pool not found - this will create a new pool"
     | Fails (Some msg) => reserves st' = reserves st /\ error st' = Some msg
     | Fails None =>
         reserves st' = reserves st /\ error st' = Some "Failed to fetch reserves"
     end.
Proof.
  intros Hne addressA addressB st'.
  pose proof (sort2_first addressA addressB Hne) as Hfirst.
  subst st' addressA addressB. unfold fetchReserves. cbv zeta.
  apply String.eqb_neq in Hne. rewrite Hne.
  destruct (Str.sort2 (getActualAddress tA) (getActualAddress tB)) as [t0 t1].
  cbn [fst snd] in *. rewrite Hfirst.
  destruct (subgraph t0 t1) as [[msg |] | msg | [| p ps]]; cbn; auto.
Qed.

(** X1. Asking for the pair the other way round finds the same pool and reads
    its reserves, ratios and calculators crosswise. *)
Theorem swapping_tokens_swaps_sides
        (tA tB : Token) (subgraph : Subgraph) (st : State) :
  getActualAddress tA <> getActualAddress tB ->
  let sAB := fetchReserves (Some tA) (Some tB) subgraph st in
  let sBA := fetchReserves (Some tB) (Some tA) subgraph st in
  reserves sAB = reserves sBA
  /\ reserveA sAB = reserveB sBA
  /\ reserveB sAB = reserveA sBA
  /\ ratio sAB = reverseRatio sBA
  /\ reverseRatio sAB = ratio sBA
  /\ (forall x, calculateAmountB sAB x = calculateAmountA sBA x)
  /\ (forall x, calculateAmountA sAB x = calculateAmountB sBA x).
Proof.
  intros Hne sAB sBA.
  destruct (fetchReserves_distinct tA tB subgraph st Hne) as (HfAB & _ & HrAB).
  destruct (fetchReserves_distinct tB tA subgraph st (not_eq_sym Hne))
    as (HfBA & _ & HrBA).
  fold sAB in HfAB, HrAB. fold sBA in HfBA, HrBA.
  rewrite <- (sort2_swap _ _ Hne) in HrBA.
  assert (Hflag : isTokenAFirst sAB = negb (isTokenAFirst sBA)).
  { rewrite HfAB, HfBA. unfold String.ltb.
    pose proof (String.compare_antisym (getActualAddress tB) (getActualAddress tA))
      as Hanti.
    destruct (String.compare (getActualAddress tA) (getActualAddress tB)) eqn:E;
      cbn in Hanti; rewrite Hanti; cbn; try reflexivity.
    apply String.compare_eq_iff in E. contradiction. }
  assert (Hres : reserves sAB = reserves sBA).
  { destruct (subgraph _ _) as [[msg |] | msg | [| p ps]];
      destruct HrAB as [-> _]; destruct HrBA as [-> _]; reflexivity. }
  assert (HA : reserveA sAB = reserveB sBA).
  { unfold reserveA, reserveB. rewrite Hres, Hflag.
    destruct (reserves sBA); [ destruct (isTokenAFirst sBA) | ]; reflexivity. }
  assert (HB : reserveB sAB = reserveA sBA).
  { unfold reserveA, reserveB. rewrite Hres, Hflag.
    destruct (reserves sBA); [ destruct (isTokenAFirst sBA) | ]; reflexivity. }
  assert (HAn : reserveANum sAB = reserveBNum sBA).
  { unfold reserveANum, reserveBNum. now rewrite HA. }
  assert (HBn : reserveBNum sAB = reserveANum sBA).
  { unfold reserveANum, reserveBNum. now rewrite HB. }
  assert (Hratio : ratio sAB = reverseRatio sBA).
  { unfold ratio, reverseRatio. now rewrite HAn, HBn. }
  assert (Hrev : reverseRatio sAB = ratio sBA).
  { unfold ratio, reverseRatio. now rewrite HAn, HBn. }
  assert (Hpool : poolExists sAB = poolExists sBA).
  { unfold poolExists. now rewrite Hres. }
  repeat split; try assumption.
  - intros x. unfold calculateAmountB, calculateAmountA.
    now rewrite Hpool, HAn, Hratio.
  - intros x. unfold calculateAmountB, calculateAmountA.
    now rewrite Hpool, HBn, Hrev.
Qed.

(** X2. Two tokens with the same effective address are not looked up: the
    indexer is not asked, the error is set, and the reserves, ratios and
    flags of the pair shown before stay.  A native token and WMON are such
    a pair. *)
Theorem same_token_is_not_looked_up
        (tA tB : Token) (subgraph other : Subgraph) (st : State) :
  getActualAddress tA = getActualAddress tB ->
  let st' := fetchReserves (Some tA) (Some tB) subgraph st in
  st' = fetchReserves (Some tA) (Some tB) other st
  /\ error st' = Some "Same token selected"
  /\ reserves st' = reserves st
  /\ isTokenAFirst st' = isTokenAFirst st
  /\ loading st' = loading st
  /\ ratio st' = ratio st.
Proof.
  intros Hsame st'. subst st'. unfold fetchReserves.
  apply String.eqb_eq in Hsame. rewrite Hsame.
  repeat split.
Qed.

Lemma native_is_wmon (t : Token) :
  is_native t = true -> getActualAddress t = getActualAddress WMON_TOKEN.
Proof.
  intros Hnat. unfold getActualAddress. rewrite Hnat. reflexivity.
Qed.

(** X3. A refresh that fails, or that the indexer answers with errors, keeps
    the reserves fetched before, reports the error and ends with [loading]
    off; an answer without the pair clears the reserves, and both ratios
    fall back to 1. *)
Theorem failed_refresh_keeps_reserves
        (tA tB : Token) (subgraph : Subgraph) (st : State) :
  getActualAddress tA <> getActualAddress tB ->
  let token0Addr := fst (Str.sort2 (getActualAddress tA) (getActualAddress tB)) in
  let token1Addr := snd (Str.sort2 (getActualAddress tA) (getActualAddress tB)) in
  let st' := fetchReserves (Some tA) (Some tB) subgraph st in
  loading st' = false
  /\ (forall msg,
         subgraph token0Addr token1Addr = Fails msg ->
         reserves st' = reserves st
         /\ error st' = Some (match msg with
                              | Some m => m
                              | None => "Failed to fetch reserves"
                              end))
  /\ (forall msg,
         subgraph token0Addr token1Addr = Errors msg ->
         reserves st' = reserves st /\ error st' = Some msg)
  /\ (subgraph token0Addr token1Addr = Pairs [] ->
      poolExists st' = false /\ ratio st' = one /\ reverseRatio st' = one
      /\ error st' = Some "Pool not found - this will create a new pool").
Proof.
  intros Hne token0Addr token1Addr st'.
  destruct (fetchReserves_distinct tA tB subgraph st Hne) as (_ & Hload & Hreply).
  fold st' token0Addr token1Addr in Hload, Hreply.
  split; [ exact Hload | ]. split; [ | split ].
  - intros msg H. rewrite H in Hreply. destruct msg; exact Hreply.
  - intros msg H. rewrite H in Hreply. exact Hreply.
  - intros H. rewrite H in Hreply. destruct Hreply as [Hres Herr].
    assert (Hpool : poolExists st' = false).
    { unfold poolExists. now rewrite Hres. }
    split; [ exact Hpool | ].
    split; [ apply (ratio_of_absent_or_zero st'); now left | ].
    split; [ apply (reverseRatio_of_absent_or_zero st'); now left | exact Herr ].
Qed.

End FetchFacts.

(** ** What the submitting loop hands to the wallet *)

Section SubmitLoopRuns.

Import Rpc Stake.
Local Open Scope string_scope.
Local Open Scope list_scope.

Variables (h : Hook) (w : World) (fn dflt : string) (amountWei : Z) (retries : nat).

Lemma submissions_app (l1 l2 : list Event) :
  submissions (l1 ++ l2) = submissions l1 ++ submissions l2.
Proof.
  induction l1 as [| x l1 IH]; [ reflexivity | ].
  destruct x; cbn; rewrite IH; reflexivity.
Qed.

Lemma try_submit_requests (a : Attempt) :
  (List.length (submissions (fst (try_submit h a fn amountWei))) <= 1)%nat
  /\ Forall (fun req => to req = masterChef h /\ functionName req = fn
                        /\ args req = (pid h, amountWei))
            (submissions (fst (try_submit h a fn amountWei))).
Proof.
  unfold try_submit, getFreshNonce, estimateGasWithBuffer, waitForTx.
  destruct (publicClient h), (present (address h)); cbn;
    try (split; [ lia | constructor ]).
  destruct (transactionCount a) as [n | e]; cbn;
    [ | split; [ lia | constructor ] ].
  destruct (currentGasPrice a) as [p | e]; cbn;
    [ | split; [ lia | constructor ] ].
  destruct (written a) as [hash_ | e]; cbn;
    (split; [ lia | repeat constructor ]).
Qed.

Lemma try_submit_confirmed (a : Attempt) (evs : list Event) (hash_ : string) :
  try_submit h a fn amountWei = (evs, Confirmed hash_) ->
  written a = Resolved hash_ /\ confirmed a = true
  /\ exists pre, evs = pre ++ [WaitForTx hash_ 180000].
Proof.
  unfold try_submit, getFreshNonce, estimateGasWithBuffer, waitForTx.
  destruct (publicClient h), (present (address h)); cbn; try discriminate.
  destruct (transactionCount a) as [n | e]; cbn; [ | discriminate ].
  destruct (currentGasPrice a) as [p | e]; cbn; [ | discriminate ].
  destruct (written a) as [hash' | e]; cbn; [ | discriminate ].
  destruct (confirmed a); [ | discriminate ].
  intros H. injection H as <- <-. repeat split.
  eexists [_; _; _; _]. reflexivity.
Qed.

(** The loop hands the wallet at most one request per iteration, each a
    call of [fn] on the MasterChef for the pool and the amount. *)
Lemma submit_loop_requests (remaining : nat) :
  forall (attempt : nat) (backoffMs : Z) (lastError : string),
    (List.length
       (submissions
          (fst (submit_loop h w fn dflt amountWei retries remaining attempt
                            backoffMs lastError))) <= remaining)%nat
    /\ Forall (fun req => to req = masterChef h /\ functionName req = fn
                          /\ args req = (pid h, amountWei))
              (submissions
                 (fst (submit_loop h w fn dflt amountWei retries remaining attempt
                                   backoffMs lastError))).
Proof.
  induction remaining as [| remaining IH]; intros attempt backoffMs lastError.
  - cbn. split; [ lia | constructor ].
  - cbn [submit_loop].
    destruct (try_submit_requests (attempt_at w attempt)) as [Hlen Hall].
    destruct (try_submit h (attempt_at w attempt) fn amountWei) as [evs_a e].
    cbn [fst] in Hlen, Hall.
    destruct e as [hash_ | | err].
    + cbn. split; [ lia | exact Hall ].
    + specialize (IH (S attempt) backoffMs "Transaction not confirmed in time").
      destruct (submit_loop h w fn dflt amountWei retries remaining (S attempt)
                            backoffMs "Transaction not confirmed in time")
        as [rest r']. cbn [fst] in *. destruct IH as [IHlen IHall].
      cbn [submissions]. rewrite submissions_app, length_app.
      split; [ lia | now apply Forall_app ].
    + destruct (retryable (first_present (shortMessage err) (message err) dflt)).
      * specialize (IH (S attempt) (backoffMs * 2)
                       (first_present (shortMessage err) (message err) dflt)).
        destruct (submit_loop h w fn dflt amountWei retries remaining (S attempt)
                              (backoffMs * 2)
                              (first_present (shortMessage err) (message err) dflt))
          as [rest r']. cbn [fst] in *. destruct IH as [IHlen IHall].
        cbn [submissions]. rewrite submissions_app, length_app. cbn [submissions].
        split; [ lia | now apply Forall_app ].
      * cbn [fst submissions]. rewrite submissions_app, length_app. cbn.
        rewrite app_nil_r. split; [ lia | exact Hall ].
Qed.

(** A successful result of the loop is the hash of an attempt whose
    submission was accepted and confirmed, and waiting for that receipt
    is the last thing the loop did. *)
Lemma submit_loop_success (remaining : nat) :
  forall (attempt : nat) (backoffMs : Z) (lastError : string)
         (evs : list Event) (r : TxResult),
    submit_loop h w fn dflt amountWei retries remaining attempt backoffMs lastError
    = (evs, r) ->
    success r = true ->
    exists k hash_ pre,
      (attempt <= k < attempt + remaining)%nat
      /\ written (attempt_at w k) = Resolved hash_
      /\ confirmed (attempt_at w k) = true
      /\ r = succeeded hash_
      /\ evs = pre ++ [WaitForTx hash_ 180000].
Proof.
  induction remaining as [| remaining IH];
    intros attempt backoffMs lastError evs r Hrun Hok.
  - cbn in Hrun. injection Hrun as <- <-. discriminate.
  - cbn [submit_loop] in Hrun.
    destruct (try_submit h (attempt_at w attempt) fn amountWei) as [evs_a e] eqn:Htry.
    destruct e as [hash_ | | err].
    + injection Hrun as <- <-.
      destruct (try_submit_confirmed _ _ _ Htry) as (Hw & Hc & pre & ->).
      exists attempt, hash_, (LogAttempt attempt retries :: pre).
      repeat split; try assumption; lia.
    + destruct (submit_loop h w fn dflt amountWei retries remaining (S attempt)
                            backoffMs "Transaction not confirmed in time")
        as [rest r'] eqn:Hrest.
      injection Hrun as <- <-.
      destruct (IH _ _ _ _ _ Hrest Hok) as (k & hash_ & pre & Hk & Hw & Hc & Hr & ->).
      exists k, hash_, (LogAttempt attempt retries :: evs_a ++ pre).
      repeat split; try assumption; try lia.
      cbn. now rewrite app_assoc.
    + destruct (retryable (first_present (shortMessage err) (message err) dflt)).
      * destruct (submit_loop h w fn dflt amountWei retries remaining (S attempt)
                              (backoffMs * 2)
                              (first_present (shortMessage err) (message err) dflt))
          as [rest r'] eqn:Hrest.
        injection Hrun as <- <-.
        destruct (IH _ _ _ _ _ Hrest Hok)
          as (k & hash_ & pre & Hk & Hw & Hc & Hr & ->).
        exists k, hash_,
          (LogAttempt attempt retries
             :: evs_a ++ LogFailed attempt
                           (first_present (shortMessage err) (message err) dflt)
                         :: Sleep backoffMs :: pre).
        repeat split; try assumption; try lia.
        cbn. rewrite <- app_assoc. reflexivity.
      * injection Hrun as <- <-. discriminate.
Qed.

Hypothesis Hconnected : disconnected h = false.

(** When every submission is accepted and none is confirmed in time, each
    iteration submits again, at once. *)
Lemma submit_loop_unconfirmed (remaining : nat) :
  forall (attempt : nat) (backoffMs : Z) (lastError : string),
    (forall k, (attempt <= k < attempt + remaining)%nat ->
               confirmed (attempt_at w k) = false
               /\ exists n p hash_,
                   transactionCount (attempt_at w k) = Resolved n
                   /\ currentGasPrice (attempt_at w k) = Resolved p
                   /\ written (attempt_at w k) = Resolved hash_) ->
    let run := submit_loop h w fn dflt amountWei retries remaining attempt
                           backoffMs lastError in
    snd run = failed (match remaining with
                      | O => lastError
                      | S _ => "Transaction not confirmed in time"
                      end)
    /\ List.length (submissions (fst run)) = remaining
    /\ count_attempts (fst run) = remaining
    /\ sleeps (fst run) = [].
Proof.
  destruct (connected_parts h Hconnected) as [Hpc Haddr].
  induction remaining as [| remaining IH]; intros attempt backoffMs lastError Hall.
  - cbn. repeat split.
  - destruct (Hall attempt ltac:(lia)) as (Hc & n & p & hash_ & Hn & Hp & Hw).
    assert (Hrest : forall k, (S attempt <= k < S attempt + remaining)%nat ->
               confirmed (attempt_at w k) = false
               /\ exists n p hash_,
                   transactionCount (attempt_at w k) = Resolved n
                   /\ currentGasPrice (attempt_at w k) = Resolved p
                   /\ written (attempt_at w k) = Resolved hash_).
    { intros k Hk. apply Hall. lia. }
    specialize (IH (S attempt) backoffMs "Transaction not confirmed in time" Hrest).
    cbn zeta in IH |- *. cbn [submit_loop].
    pose proof (try_submit_calls h fn amountWei Hconnected (attempt_at w attempt))
      as Hcalls.
    destruct (try_submit_requests (attempt_at w attempt)) as [Hlen _].
    assert (Htry : snd (try_submit h (attempt_at w attempt) fn amountWei) = Unconfirmed
                   /\ List.length (submissions
                        (fst (try_submit h (attempt_at w attempt) fn amountWei)))
                      = 1%nat).
    { unfold try_submit, getFreshNonce, estimateGasWithBuffer, waitForTx.
      rewrite Hpc, Haddr, Hn, Hp, Hw, Hc. cbn. split; reflexivity. }
    destruct (try_submit h (attempt_at w attempt) fn amountWei) as [evs_a e].
    cbn [fst snd] in *. destruct Htry as [-> Hone].
    destruct (submit_loop h w fn dflt amountWei retries remaining (S attempt)
                          backoffMs "Transaction not confirmed in time")
      as [rest r']. cbn [fst snd] in *.
    destruct IH as (Hr & Hs & Hca & Hsl).
    split.
    { rewrite Hr. destruct remaining; reflexivity. }
    cbn [submissions count_attempts sleeps].
    rewrite submissions_app, length_app, count_attempts_app, sleeps_app.
    rewrite (sleeps_calls _ Hcalls), (count_attempts_calls _ Hcalls).
    repeat split; cbn; lia || assumption.
Qed.

End SubmitLoopRuns.

(** ** Runs of [stake] and [unstake] *)

Section StakeRuns.

Import Rpc Stake.
Local Open Scope string_scope.
Local Open Scope list_scope.

Variable parseUnits : string -> nat -> option Z.

(** The two ways [stake] ends: early, after reads only and without
    success, or through the loop, with every guard passed. *)
Lemma stake_inv (h : Hook) (w : World) (amount : string) (retries : nat)
      (evs : list Event) (out : Outcome) :
  stake parseUnits h w amount retries = (evs, out) ->
  (Forall is_read evs /\ (out = Throws \/ exists msg, out = Returns (failed msg)))
  \/ (disconnected h = false
      /\ Str.truthy amount = true
      /\ JS.le (JS.parseFloat amount) JS.pos_zero = false
      /\ (poolVerified h = true \/ snd (verifyPool h w) = true)
      /\ exists amountWei a ev0 loop_evs r,
          parseUnits amount 18 = Some amountWei
          /\ allowance h = Some a /\ a <> 0 /\ amountWei <= a
          /\ (forall b, lpBalance h = Some b -> b = 0 \/ amountWei <= b)
          /\ Forall is_read ev0
          /\ submit_loop h w "deposit" "Stake failed" amountWei retries retries 1 3000 ""
             = (loop_evs, r)
          /\ evs = ev0 ++ loop_evs /\ out = Returns r).
Proof.
  unfold stake.
  destruct (disconnected h) eqn:Hconn.
  { intros H; injection H as <- <-. left. split; [ constructor | eauto ]. }
  destruct (Str.truthy amount) eqn:Htruthy; cbn [negb orb];
    [ | intros H; injection H as <- <-; left; split; [ constructor | eauto ] ].
  destruct (JS.le (JS.parseFloat amount) JS.pos_zero) eqn:Hle;
    [ intros H; injection H as <- <-; left; split; [ constructor | eauto ] | ].
  assert (Hev0 : Forall is_read
                  (fst (if poolVerified h then ([], true) else verifyPool h w))).
  { destruct (poolVerified h); [ constructor | apply verifyPool_reads ]. }
  assert (Hvalid : snd (if poolVerified h then ([], true) else verifyPool h w) = true ->
                   poolVerified h = true \/ snd (verifyPool h w) = true).
  { destruct (poolVerified h); [ now left | now right ]. }
  destruct (if poolVerified h then ([], true) else verifyPool h w)
    as [ev0 isValid]. cbn [fst snd] in Hev0, Hvalid.
  destruct isValid; cbn [negb];
    [ | intros H; injection H as <- <-; left; split; [ assumption | eauto ] ].
  destruct (parseUnits amount 18) as [amountWei |] eqn:Hparse;
    [ | intros H; injection H as <- <-; left; split; [ assumption | eauto ] ].
  destruct (truthy_bigint (lpBalance h)
            && (match lpBalance h with Some b => b | None => 0 end <? amountWei)%Z)%bool
    eqn:Hbal;
    [ intros H; injection H as <- <-; left; split; [ assumption | eauto ] | ].
  destruct (negb (truthy_bigint (allowance h))
            || (match allowance h with Some a => a | None => 0 end <? amountWei)%Z)%bool
    eqn:Hallow;
    [ intros H; injection H as <- <-; left; split; [ assumption | eauto ] | ].
  destruct (submit_loop h w "deposit" "Stake failed" amountWei retries retries 1 3000 "")
    as [loop_evs r] eqn:Hloop.
  intros H; injection H as <- <-. right.
  repeat split; auto.
  apply orb_false_iff in Hallow. destruct Hallow as [Hnz Hlt].
  destruct (allowance h) as [a |] eqn:Ha; [ | discriminate ].
  cbn in Hnz. apply negb_false_iff, negb_true_iff, Z.eqb_neq in Hnz.
  apply Z.ltb_ge in Hlt.
  assert (Hbalance : forall b, lpBalance h = Some b -> b = 0 \/ amountWei <= b).
  { intros b0 Hb. destruct (lpBalance h) as [b1 |]; [ | discriminate ].
    injection Hb as <-. unfold truthy_bigint in Hbal.
    destruct (Z.eqb_spec b1 0) as [Hz | Hne]; [ now left | right ].
    apply Z.ltb_ge. exact Hbal. }
  exists amountWei, a, ev0, loop_evs, r. repeat split; auto.
Qed.

Lemma unstake_inv (h : Hook) (w : World) (amount : string) (retries : nat)
      (evs : list Event) (out : Outcome) :
  unstake parseUnits h w amount retries = (evs, out) ->
  (evs = [] /\ (out = Throws \/ exists msg, out = Returns (failed msg)))
  \/ (disconnected h = false
      /\ Str.truthy amount = true
      /\ JS.le (JS.parseFloat amount) JS.pos_zero = false
      /\ exists amountWei r,
          parseUnits amount 18 = Some amountWei
          /\ submit_loop h w "withdraw" "Unstake failed" amountWei retries retries
                         1 3000 ""
             = (evs, r)
          /\ out = Returns r).
Proof.
  unfold unstake.
  destruct (disconnected h) eqn:Hconn.
  { intros H; injection H as <- <-. left. split; eauto. }
  destruct (Str.truthy amount) eqn:Htruthy; cbn [negb orb];
    [ | intros H; injection H as <- <-; left; split; eauto ].
  destruct (JS.le (JS.parseFloat amount) JS.pos_zero) eqn:Hle;
    [ intros H; injection H as <- <-; left; split; eauto | ].
  destruct (parseUnits amount 18) as [amountWei |] eqn:Hparse;
    [ | intros H; injection H as <- <-; left; split; eauto ].
  destruct (submit_loop h w "withdraw" "Unstake failed" amountWei retries retries
                        1 3000 "") as [loop_evs r] eqn:Hloop.
  intros H; injection H as <- <-. right.
  repeat split; auto. exists amountWei, r. now repeat split.
Qed.

(** X6. Whatever the chain and the wallet answer, [stake] hands the wallet at
    most [retries] requests, each a [deposit] on the MasterChef for the
    pool and the parsed amount, and [unstake] at most [retries] requests,
    each such a [withdraw]. *)
Theorem submissions_call_the_masterchef
        (h : Hook) (w : World) (amount : string) (retries : nat) :
  let sent fn evs :=
    (List.length (submissions evs) <= retries)%nat
    /\ forall req,
        In (WriteContract req) evs ->
        to req = masterChef h /\ functionName req = fn
        /\ fst (args req) = pid h
        /\ parseUnits amount 18 = Some (snd (args req)) in
  sent "deposit" (fst (stake parseUnits h w amount retries))
  /\ sent "withdraw" (fst (unstake parseUnits h w amount retries)).
Proof.
  assert (Hin : forall evs req, In (WriteContract req) evs -> In req (submissions evs)).
  { induction evs as [| x evs IH]; intros req; [ intros [] | ].
    intros [-> | Hin]; [ now left | ].
    destruct x; cbn; auto. }
  cbv zeta. split.
  - destruct (stake parseUnits h w amount retries) as [evs out] eqn:Hrun.
    cbn [fst].
    destruct (stake_inv _ _ _ _ _ _ Hrun)
      as [[Hreads _]
         | (_ & _ & _ & _ & amountWei & a & ev0 & loop_evs & r
            & Hparse & _ & _ & _ & _ & Hreads & Hloop & -> & _)].
    + rewrite (reads_submit_nothing _ Hreads). split; [ cbn; lia | ].
      intros req Hreq. apply Hin in Hreq.
      rewrite (reads_submit_nothing _ Hreads) in Hreq. destruct Hreq.
    + destruct (submit_loop_requests h w "deposit" "Stake failed" amountWei retries
                                     retries 1 3000 "") as [Hlen Hall].
      rewrite Hloop in Hlen, Hall. cbn [fst] in Hlen, Hall.
      rewrite submissions_app, (reads_submit_nothing _ Hreads). cbn [app].
      split; [ exact Hlen | ].
      intros req Hreq. apply Hin in Hreq.
      rewrite submissions_app, (reads_submit_nothing _ Hreads) in Hreq.
      rewrite Forall_forall in Hall.
      destruct (Hall _ Hreq) as (Hto & Hfn & Hargs).
      rewrite Hargs. cbn. now repeat split.
  - destruct (unstake parseUnits h w amount retries) as [evs out] eqn:Hrun.
    cbn [fst].
    destruct (unstake_inv _ _ _ _ _ _ Hrun)
      as [[-> _] | (_ & _ & _ & amountWei & r & Hparse & Hloop & _)].
    + split; [ cbn; lia | intros req [] ].
    + destruct (submit_loop_requests h w "withdraw" "Unstake failed" amountWei
                                     retries retries 1 3000 "") as [Hlen Hall].
      rewrite Hloop in Hlen, Hall. cbn [fst] in Hlen, Hall.
      split; [ exact Hlen | ].
      intros req Hreq. apply Hin in Hreq.
      rewrite Forall_forall in Hall.
      destruct (Hall _ Hreq) as (Hto & Hfn & Hargs).
      rewrite Hargs. cbn. now repeat split.
Qed.

(** X7. [stake] reports success only for a connected wallet, a non-empty
    amount that does not read as a number at or below zero, an accepted
    pool, a non-zero allowance that covers the parsed amount, a balance
    that is unknown, zero or covers it, and an attempt whose submission
    the wallet accepted and the chain confirmed; the result carries the
    hash of that submission and the run ends waiting for it. *)
Theorem stake_success_means_confirmed
        (h : Hook) (w : World) (amount : string) (retries : nat)
        (evs : list Event) (r : TxResult) :
  stake parseUnits h w amount retries = (evs, Returns r) ->
  success r = true ->
  disconnected h = false
  /\ Str.truthy amount = true
  /\ JS.le (JS.parseFloat amount) JS.pos_zero = false
  /\ (poolVerified h = true \/ snd (verifyPool h w) = true)
  /\ (exists amountWei a,
         parseUnits amount 18 = Some amountWei
         /\ allowance h = Some a /\ a <> 0 /\ amountWei <= a
         /\ forall b, lpBalance h = Some b -> b = 0 \/ amountWei <= b)
  /\ exists k hash_ pre,
      (1 <= k <= retries)%nat
      /\ written (attempt_at w k) = Resolved hash_
      /\ confirmed (attempt_at w k) = true
      /\ r = succeeded hash_
      /\ evs = pre ++ [WaitForTx hash_ 180000].
Proof.
  intros Hrun Hok.
  destruct (stake_inv _ _ _ _ _ _ Hrun)
    as [[_ [Hout | [msg Hout]]]
       | (Hconn & Htruthy & Hle & Hpool & amountWei & a & ev0 & loop_evs & r'
          & Hparse & Ha & Hnz & Hcover & Hbal & Hreads & Hloop & -> & Hout)].
  - discriminate.
  - injection Hout as ->. discriminate.
  - injection Hout as <-.
    destruct (submit_loop_success h w _ _ _ _ _ _ _ _ _ _ Hloop Hok)
      as (k & hash_ & pre & Hk & Hw & Hc & Hr & ->).
    split; [ exact Hconn | ]. split; [ exact Htruthy | ].
    split; [ exact Hle | ]. split; [ exact Hpool | ].
    split; [ exists amountWei, a; now repeat split | ].
    exists k, hash_, (ev0 ++ pre). repeat split; try assumption; try lia.
    now rewrite app_assoc.
Qed.

End StakeRuns.

(** ** Edges of [stake], [unstake] and [verifyPool] *)

Section StakeEdges.

Import Rpc Stake.
Local Open Scope string_scope.
Local Open Scope list_scope.

Variable parseUnits : string -> nat -> option Z.

(** X10. When the wallet accepts every submission and none is confirmed within
    its three minutes, [unstake] submits [retries] transactions one after
    the other without sleeping in between and fails with "Transaction not
    confirmed in time" (with the empty message when [retries] is 0); so
    does [stake] once its guards are passed. *)
Theorem unconfirmed_attempts_are_resubmitted
        (h : Hook) (w : World) (amount : string) (retries : nat) (amountWei : Z) :
  disconnected h = false ->
  Str.truthy amount = true ->
  JS.le (JS.parseFloat amount) JS.pos_zero = false ->
  parseUnits amount 18 = Some amountWei ->
  (forall k, (1 <= k <= retries)%nat ->
             confirmed (attempt_at w k) = false
             /\ exists n p hash_,
                 transactionCount (attempt_at w k) = Resolved n
                 /\ currentGasPrice (attempt_at w k) = Resolved p
                 /\ written (attempt_at w k) = Resolved hash_) ->
  let given_up run :=
    snd run = Returns (failed (match retries with
                               | O => ""
                               | S _ => "Transaction not confirmed in time"
                               end))
    /\ List.length (submissions (fst run)) = retries
    /\ count_attempts (fst run) = retries
    /\ sleeps (fst run) = [] in
  given_up (unstake parseUnits h w amount retries)
  /\ (poolVerified h = true ->
      (exists a, allowance h = Some a /\ a <> 0 /\ amountWei <= a) ->
      (forall b, lpBalance h = Some b -> b = 0 \/ amountWei <= b) ->
      given_up (stake parseUnits h w amount retries)).
Proof.
  intros Hconn Htruthy Hle Hparse Hall. cbv zeta.
  assert (Hrange : forall k, (1 <= k < 1 + retries)%nat ->
             confirmed (attempt_at w k) = false
             /\ exists n p hash_,
                 transactionCount (attempt_at w k) = Resolved n
                 /\ currentGasPrice (attempt_at w k) = Resolved p
                 /\ written (attempt_at w k) = Resolved hash_).
  { intros k Hk. apply Hall. lia. }
  split.
  - pose proof (submit_loop_unconfirmed h w "withdraw" "Unstake failed" amountWei
                  retries Hconn retries 1%nat 3000 "" Hrange) as Hloop.
    cbv zeta in Hloop. unfold unstake.
    rewrite Hconn, Htruthy, Hle, Hparse. cbn [negb orb].
    destruct (submit_loop h w "withdraw" "Unstake failed" amountWei retries retries
                          1 3000 "") as [evs r].
    cbn [fst snd] in *. destruct Hloop as (-> & Hs & Hc & Hsl).
    now repeat split.
  - intros Hverified (a & Ha & Hnz & Hcover) Hbal.
    pose proof (submit_loop_unconfirmed h w "deposit" "Stake failed" amountWei
                  retries Hconn retries 1%nat 3000 "" Hrange) as Hloop.
    cbv zeta in Hloop. unfold stake.
    rewrite Hconn, Htruthy, Hle, Hverified, Hparse, Ha. cbn [negb orb].
    assert (Hb : (truthy_bigint (lpBalance h)
                  && (match lpBalance h with Some b => b | None => 0 end
                      <? amountWei)%Z)%bool = false).
    { destruct (lpBalance h) as [b |]; [ | reflexivity ].
      destruct (Hbal b eq_refl) as [-> | Hge]; [ reflexivity | ].
      apply andb_false_iff. right. now apply Z.ltb_ge. }
    rewrite Hb.
    assert (Hal : (negb (truthy_bigint (Some a)) || (a <? amountWei)%Z)%bool = false).
    { apply orb_false_iff. split; [ | now apply Z.ltb_ge ].
      cbn. apply negb_false_iff, negb_true_iff. now apply Z.eqb_neq. }
    rewrite Hal.
    destruct (submit_loop h w "deposit" "Stake failed" amountWei retries retries
                          1 3000 "") as [evs r].
    cbn [fst snd app] in *. destruct Hloop as (-> & Hs & Hc & Hsl).
    now repeat split.
Qed.

(** X11. The amount check of the hook refuses the empty string and what
    reads as a number at or below zero, not what does not read as a
    number: for a connected wallet such an amount goes on to [parseUnits].
    When [parseUnits] throws, [unstake], and [stake] on a verified pool,
    reject without having called anything; when [parseUnits] accepts the
    amount, [unstake] runs its loop on it. *)
Theorem unreadable_amount_passes_the_check
        (h : Hook) (w : World) (amount : string) (retries : nat) :
  disconnected h = false ->
  Str.truthy amount = true ->
  JS.parseFloat amount = JS.NaN ->
  (parseUnits amount 18 = None ->
   unstake parseUnits h w amount retries = ([], Throws)
   /\ (poolVerified h = true -> stake parseUnits h w amount retries = ([], Throws)))
  /\ (forall amountWei,
         parseUnits amount 18 = Some amountWei ->
         fst (unstake parseUnits h w amount retries)
         = fst (submit_loop h w "withdraw" "Unstake failed" amountWei retries retries
                            1 3000 "")
         /\ snd (unstake parseUnits h w amount retries)
            = Returns (snd (submit_loop h w "withdraw" "Unstake failed" amountWei
                                        retries retries 1 3000 ""))).
Proof.
  intros Hconn Htruthy Hnan. split.
  - intros Hparse. unfold unstake, stake.
    rewrite Hconn, Htruthy, Hnan, Hparse. cbn [negb orb JS.le SFleb SFcompare].
    split; [ reflexivity | ]. intros ->. reflexivity.
  - intros amountWei Hparse. unfold unstake.
    rewrite Hconn, Htruthy, Hnan, Hparse. cbn [negb orb JS.le SFleb SFcompare].
    destruct (submit_loop h w "withdraw" "Unstake failed" amountWei retries retries
                          1 3000 ""). now split.
Qed.

(** X12. [verifyPool] accepts the pool exactly when there is a public client,
    [poolLength] answers more than the pool id and [poolInfo] answers an
    LP token other than the zero address, whatever the letter case; it
    accepts an LP token that differs from the configured one, and a pool
    without allocation points; it makes at most the two reads, and
    [stake] on a pool that it does not accept submits nothing. *)
Theorem verifyPool_accepts_iff (h : Hook) (w : World) :
  (snd (verifyPool h w) = true <->
   publicClient h = true
   /\ exists len lp allocPoint,
       poolLength w = Resolved len /\ pid h < len
       /\ poolInfo w = Resolved (lp, allocPoint)
       /\ Str.toLowerCase lp <> Str.toLowerCase ZERO_ADDRESS)
  /\ Forall is_read (fst (verifyPool h w))
  /\ (List.length (fst (verifyPool h w)) <= 2)%nat
  /\ forall amount retries,
      poolVerified h = false ->
      snd (verifyPool h w) = false ->
      submissions (fst (stake parseUnits h w amount retries)) = []
      /\ exists msg, snd (stake parseUnits h w amount retries) = Returns (failed msg).
Proof.
  split; [ | split; [ apply verifyPool_reads | split ] ].
  - unfold verifyPool. destruct (publicClient h); cbn.
    + destruct (poolLength w) as [len | e]; cbn.
      * destruct (Z.leb_spec len (pid h)); cbn.
        -- split; [ discriminate | ].
           intros (_ & len' & lp & alloc & Hlen & Hlt & _).
           injection Hlen as <-. lia.
        -- destruct (poolInfo w) as [[lp alloc] | e]; cbn.
           ++ split.
              ** intros Hne. apply negb_true_iff, String.eqb_neq in Hne.
                 split; [ reflexivity | ]. exists len, lp, alloc. now repeat split.
              ** intros (_ & len' & lp' & alloc' & _ & _ & Hinfo & Hne).
                 injection Hinfo as <- <-.
                 now apply negb_true_iff, String.eqb_neq.
           ++ split; [ discriminate | ].
              intros (_ & len' & lp & alloc & _ & _ & Hinfo & _). discriminate.
      * split; [ discriminate | ].
        intros (_ & len & lp & alloc & Hlen & _). discriminate.
    + split; [ discriminate | ]. intros [Hpc _]. discriminate.
  - unfold verifyPool. destruct (publicClient h); cbn; [ | lia ].
    destruct (poolLength w) as [len | e]; cbn; [ | lia ].
    destruct (len <=? pid h)%Z; cbn; [ lia | ].
    destruct (poolInfo w) as [[lp alloc] | e]; cbn; lia.
  - intros amount retries Hunverified Hrefused.
    destruct (stake parseUnits h w amount retries) as [evs out] eqn:Hrun.
    cbn [fst snd].
    destruct (stake_inv _ _ _ _ _ _ _ Hrun)
      as [[Hreads Hout] | (_ & _ & _ & [Hv | Hv] & _)]; try congruence.
    split; [ now apply reads_submit_nothing | ].
    destruct Hout as [-> | [msg ->]]; [ | eauto ].
    exfalso. revert Hrun. unfold stake.
    destruct (disconnected h); [ discriminate | ].
    match goal with |- (if ?c then _ else _) = _ -> _ => destruct c end;
      [ discriminate | ].
    rewrite Hunverified.
    destruct (verifyPool h w) as [ev0 isValid]. cbn [snd] in Hrefused.
    rewrite Hrefused. discriminate.
Qed.

End StakeEdges.

(** ** Waiting for a receipt *)

Section ReceiptFacts.

Import Receipt.

Lemma steps_cover (timeoutMs : Z) : timeoutMs <= 2000 * Z.of_nat (steps timeoutMs).
Proof.
  unfold steps.
  pose proof (Z.div_mod (timeoutMs + 1999) 2000 ltac:(lia)) as Hdiv.
  pose proof (Z.mod_pos_bound (timeoutMs + 1999) 2000 ltac:(lia)) as Hmod.
  destruct (Z.le_gt_cases 0 ((timeoutMs + 1999) / 2000)) as [Hq | Hq].
  - rewrite Z2Nat.id by exact Hq. lia.
  - destruct ((timeoutMs + 1999) / 2000) as [| q | q]; cbn; lia.
Qed.

Variable chain : nat -> Poll.
Variables startTime timeoutMs : Z.

Hypothesis Hclock : forall i, 0 <= took (chain i) /\ 0 <= late (chain i).

Lemma poll_spec (fuel : nat) :
  forall (i : nat) (now : Z),
    2000 * Z.of_nat i <= now - startTime ->
    (steps timeoutMs <= fuel + i)%nat ->
    exists n b,
      poll fuel chain i now startTime timeoutMs = Some (n, b)
      /\ (i <= n)%nat
      /\ (n <= Nat.max i (steps timeoutMs))%nat
      /\ (forall j, (i <= j)%nat -> (S j < n)%nat ->
                    forall s, answer (chain j) <> Found s)
      /\ (b = true <->
          exists j, (i <= j)%nat /\ n = S j /\ answer (chain j) = Found success).
Proof.
  pose proof (steps_cover timeoutMs) as Hcover.
  induction fuel as [| fuel IH]; intros i now Hnow Hfuel.
  - cbn [poll]. destruct (Z.ltb_spec (now - startTime) timeoutMs) as [Hlt | Hge];
      [ lia | ].
    exists i, false. split; [ reflexivity | ]. split; [ lia | ]. split; [ lia | ].
    split; [ intros; lia | ].
    split; [ discriminate | intros (j & Hj & Hn & _); lia ].
  - cbn [poll]. destruct (Z.ltb_spec (now - startTime) timeoutMs) as [Hlt | Hge].
    + assert (Hi : (i < steps timeoutMs)%nat) by lia.
      destruct (answer (chain i)) as [| | s] eqn:Hanswer.
      1, 2:
        destruct (Hclock i) as [Htook Hlate];
        destruct (IH (S i) (now + took (chain i) + 2000 + late (chain i))
                     ltac:(lia) ltac:(lia))
          as (n & b & Hrun & Hle & Hmax & Hnone & Hb);
        exists n, b; split; [ exact Hrun | ]; split; [ lia | ]; split; [ lia | ];
        split;
        [ intros j Hj Hjn s;
          destruct (Nat.eq_dec j i) as [-> | Hne];
          [ rewrite Hanswer; discriminate | apply Hnone; lia ]
        | rewrite Hb; split;
          [ intros (j & Hj & Hn & Hf); exists j; repeat split; try assumption; lia
          | intros (j & Hj & Hn & Hf); exists j; repeat split; try assumption;
            destruct (Nat.eq_dec j i) as [-> | Hne];
            [ rewrite Hanswer in Hf; discriminate | lia ] ] ].
      exists (S i), (match s with success => true | reverted => false end).
      split; [ reflexivity | ]. split; [ lia | ]. split; [ lia | ].
      split; [ intros; lia | ].
      split.
      * intros Hb. exists i. repeat split; [ lia | ].
        destruct s; [ exact Hanswer | discriminate ].
      * intros (j & Hj & Hn & Hf). injection Hn as <-.
        rewrite Hanswer in Hf. injection Hf as ->. reflexivity.
    + exists i, false. split; [ reflexivity | ]. split; [ lia | ]. split; [ lia | ].
      split; [ intros; lia | ].
      split; [ discriminate | intros (j & Hj & Hn & _); lia ].
Qed.

End ReceiptFacts.

(** X13. On a clock that does not run backwards [waitForTx] ends: it polls at
    most once per 2000 ms of its timeout, stops at the first receipt it
    finds, and answers true exactly when that receipt is a success; a
    receipt of a reverted transaction, a timeout and polls that throw all
    give false. *)
Theorem waitForTx_polls_until_receipt_or_timeout
        (chain : nat -> Receipt.Poll) (startTime timeoutMs : Z) (fuel : nat) :
  (forall i, 0 <= Receipt.took (chain i) /\ 0 <= Receipt.late (chain i)) ->
  (Receipt.steps timeoutMs <= fuel)%nat ->
  exists n b,
    Receipt.waitForTx fuel true chain startTime timeoutMs = Some (n, b)
    /\ (n <= Receipt.steps timeoutMs)%nat
    /\ (forall j, (S j < n)%nat ->
                  forall s, Receipt.answer (chain j) <> Receipt.Found s)
    /\ (b = true <->
        exists j, n = S j /\ Receipt.answer (chain j) = Receipt.Found Receipt.success).
Proof.
  intros Hclock Hfuel. unfold Receipt.waitForTx. cbn [negb].
  destruct (poll_spec chain startTime timeoutMs Hclock fuel O startTime
                      ltac:(lia) ltac:(lia))
    as (n & b & Hrun & _ & Hmax & Hnone & Hb).
  exists n, b. split; [ exact Hrun | ]. split; [ lia | ].
  split; [ intros j Hj; apply Hnone; lia | ].
  rewrite Hb. split.
  - intros (j & _ & Hn & Hf). eauto.
  - intros (j & Hn & Hf). exists j. repeat split; try assumption. lia.
Qed.

(** ** Approving the LP token *)

Section ApproveFacts.

Import Rpc Stake.
Local Open Scope string_scope.
Local Open Scope list_scope.

Lemma caught_fails (e : JsError) : success (StakeApprove.caught e) = false.
Proof. reflexivity. Qed.

(** X14. [approve] hands the wallet at most one request and never retries; the
    request approves the MasterChef for the largest 256-bit amount on the
    LP token, with the pending nonce and 180% of the gas estimate (500000
    without an estimate).  It reports success exactly when the wallet is
    connected, the nonce was answered, the wallet accepted the request,
    the receipt was a success in time and refetching the allowance did not
    throw; the allowance is refetched exactly after a confirmed
    approval. *)
Theorem approve_is_one_unlimited_request
        (h : Hook) (a : Attempt) (refetched : option JsError) :
  let run := StakeApprove.approve h a refetched in
  let confirmed_run :=
    disconnected h = false /\ confirmed a = true
    /\ exists n hash_, transactionCount a = Resolved n
                       /\ written a = Resolved hash_ in
  (List.length (StakeApprove.submissions (fst run)) <= 1)%nat
  /\ (forall req,
         In req (StakeApprove.submissions (fst run)) ->
         StakeApprove.to req = lpToken h
         /\ StakeApprove.spender req = masterChef h
         /\ StakeApprove.amount req = 2 ^ 256 - 1
         /\ transactionCount a = Resolved (StakeApprove.nonce req)
         /\ StakeApprove.gas req = match estimatedGas a with
                                   | Resolved estimated => (estimated * 180) ÷ 100
                                   | Rejected _ => 500000
                                   end)
  /\ (success (snd run) = true <-> confirmed_run /\ refetched = None)
  /\ (success (snd run) = true ->
      exists hash_, written a = Resolved hash_ /\ snd run = succeeded hash_)
  /\ (In StakeApprove.RefetchAllowance (fst run) <-> confirmed_run).
Proof.
  cbv zeta. unfold StakeApprove.approve, disconnected.
  destruct (walletClient h), (present (address h)), (publicClient h);
    cbn [negb orb andb fst snd StakeApprove.submissions List.length In];
    try (split; [ lia | ]; split; [ intros req [] | ];
         split; [ split; [ discriminate | intros [[Hd _] _]; discriminate ] | ];
         split; [ discriminate | ];
         split; [ intros [] | intros [Hd _]; discriminate ]).
  destruct (transactionCount a) as [n | e];
    cbn [fst snd StakeApprove.submissions List.length In app].
  2: { split; [ lia | ]. split; [ intros req [] | ].
       split; [ split; [ discriminate
                       | intros [(_ & _ & n & hash_ & Hn & _) _]; discriminate ] | ].
       split; [ discriminate | ].
       split; [ intros [Hin | []]; discriminate
              | intros (_ & _ & n & hash_ & Hn & _); discriminate ]. }
  destruct (written a) as [hash_ | e];
    cbn [fst snd StakeApprove.submissions List.length In app].
  2: { split; [ lia | ].
       split; [ intros req [<- | []]; cbn; now repeat split | ].
       split; [ split; [ discriminate
                       | intros [(_ & _ & n' & hash_ & _ & Hw) _]; discriminate ] | ].
       split; [ discriminate | ].
       split; [ intros [Hin | [Hin | [Hin | []]]]; discriminate
              | intros (_ & _ & n' & hash_ & _ & Hw); discriminate ]. }
  destruct (confirmed a);
    cbn [fst snd StakeApprove.submissions List.length In app].
  - split; [ lia | ].
    split; [ intros req [<- | []]; cbn; now repeat split | ].
    split.
    { destruct refetched as [e |]; cbn.
      - split; [ discriminate | intros [_ H]; discriminate ].
      - split; [ intros _ | reflexivity ].
        split; [ | reflexivity ]. repeat split. eauto. }
    split.
    { destruct refetched as [e |]; cbn; [ discriminate | eauto ]. }
    split; [ intros _; repeat split; eauto | ].
    intros _. right. right. right. right. right. now left.
  - split; [ lia | ].
    split; [ intros req [<- | []]; cbn; now repeat split | ].
    split; [ split; [ discriminate | intros [(_ & Hc & _) _]; discriminate ] | ].
    split; [ discriminate | ].
    split; [ intros [Hin | [Hin | [Hin | [Hin | []]]]]; discriminate
           | intros (_ & Hc & _); discriminate ].
Qed.

End ApproveFacts.

(** ** The stake modal *)

Section StakeModalFacts.

Import JS Rpc StakeModal.
Local Open Scope string_scope.
Local Open Scope list_scope.

Lemma above_zero_iff (x : number) :
  (JSGlobals.isNaN x || le x pos_zero)%bool = false <-> gt x pos_zero = true.
Proof.
  destruct x as [s | s | | s m e]; try destruct s; cbn; split; congruence.
Qed.

Lemma above_what_is_not_above_zero (x y : number) :
  gt x pos_zero = true -> le y pos_zero = true -> gt x y = true.
Proof.
  destruct x as [s | s | | s m e]; try destruct s; cbn; try discriminate;
    destruct y as [s' | s' | | s' m' e']; try destruct s'; cbn; congruence.
Qed.

(** X15. The modal accepts an amount exactly when it reads as a number above
    zero that is not above the number read from the balance of the mode;
    in particular it accepts no amount when that balance reads as zero or
    less, and any positive amount when the balance does not read as a
    number. *)
Theorem validateAmount_accepts_iff
        (mode : Mode) (lpBalance stakedAmount amount : string) :
  (validateAmount mode lpBalance stakedAmount amount = None <->
   gt (parseFloat amount) pos_zero = true
   /\ gt (parseFloat amount) (parseFloat (maxAmount mode lpBalance stakedAmount))
      = false)
  /\ (le (parseFloat (maxAmount mode lpBalance stakedAmount)) pos_zero = true ->
      validateAmount mode lpBalance stakedAmount amount <> None)
  /\ (parseFloat (maxAmount mode lpBalance stakedAmount) = NaN ->
      gt (parseFloat amount) pos_zero = true ->
      validateAmount mode lpBalance stakedAmount amount = None).
Proof.
  assert (Hiff : validateAmount mode lpBalance stakedAmount amount = None <->
                 gt (parseFloat amount) pos_zero = true
                 /\ gt (parseFloat amount)
                       (parseFloat (maxAmount mode lpBalance stakedAmount)) = false).
  { unfold validateAmount.
    destruct (Str.truthy amount) eqn:Htruthy; cbn [negb orb].
    - assert (Hne : (amount =? "") = false).
      { unfold Str.truthy in Htruthy. now apply negb_true_iff in Htruthy. }
      rewrite Hne.
      destruct (JSGlobals.isNaN (parseFloat amount) || le (parseFloat amount) pos_zero)%bool
        eqn:Hpos.
      + split; [ discriminate | ].
        intros [Hgt _]. apply above_zero_iff in Hgt. congruence.
      + apply above_zero_iff in Hpos.
        destruct (gt (parseFloat amount)
                     (parseFloat (maxAmount mode lpBalance stakedAmount))).
        * split; [ discriminate | intros [_ H]; discriminate ].
        * split; [ now split | reflexivity ].
    - split; [ discriminate | ].
      intros [Hgt _]. apply positive_amount_truthy in Hgt. congruence. }
  split; [ exact Hiff | ]. split.
  - intros Hmax Hnone. apply Hiff in Hnone. destruct Hnone as [Hgt Hle].
    rewrite (above_what_is_not_above_zero _ _ Hgt Hmax) in Hle. discriminate.
  - intros Hnan Hgt. apply Hiff. split; [ exact Hgt | ].
    rewrite Hnan. unfold gt. cbn. reflexivity.
Qed.

Variable parseUnits : string -> nat -> option Z.

Lemma deposits_app (l1 l2 : list Event) :
  deposits (l1 ++ l2) = deposits l1 ++ deposits l2.
Proof.
  induction l1 as [| x l1 IH]; [ reflexivity | ].
  destruct x as [e | e | e | |]; try destruct e; cbn; rewrite IH; reflexivity.
Qed.

Lemma approvals_app (l1 l2 : list Event) :
  approvals (l1 ++ l2) = approvals l1 ++ approvals l2.
Proof.
  induction l1 as [| x l1 IH]; [ reflexivity | ].
  destruct x as [e | e | e | |]; try destruct e; cbn; rewrite IH; reflexivity.
Qed.

Lemma deposits_InApprove (evs : list StakeApprove.Event) :
  deposits (map InApprove evs) = [].
Proof.
  induction evs as [| e evs IH]; [ reflexivity | exact IH ].
Qed.

Lemma approvals_InStake (evs : list Stake.Event) :
  approvals (map InStake evs) = [] /\ approvals (map InUnstake evs) = [].
Proof.
  induction evs as [| e evs [IH1 IH2]]; [ now split | now split ].
Qed.

Lemma handleApprove_deposits (env : Env) :
  deposits (fst (handleApprove env)) = [].
Proof.
  unfold handleApprove.
  destruct (StakeApprove.approve (hook env) (approval env) (refetched env))
    as [evs result].
  destruct (Stake.success result); cbn [fst].
  - rewrite deposits_app, deposits_InApprove. reflexivity.
  - apply deposits_InApprove.
Qed.

(** X16. A click on the submit button hands a deposit or a withdrawal to the
    wallet only when nothing is pending, the modal accepted the amount and
    no approval is required; it hands an approval to the wallet only in
    stake mode, when an approval is required, and then no deposit.  With
    no amount typed the button is enabled, and in stake mode the click
    runs the approval. *)
Theorem click_approves_or_submits
        (env : Env) (mode : Mode) (lpBalance stakedAmount amount : string) :
  let run := click parseUnits env mode lpBalance stakedAmount amount in
  (deposits (fst run) <> [] ->
   isPending env = false /\ isApproving env = false
   /\ validateAmount mode lpBalance stakedAmount amount = None
   /\ requiresApproval parseUnits env mode amount = false)
  /\ (approvals (fst run) <> [] ->
      mode = stake
      /\ requiresApproval parseUnits env mode amount = true
      /\ deposits (fst run) = [])
  /\ (amount = "" -> isPending env = false -> isApproving env = false ->
      run = match mode with
            | stake => handleApprove env
            | unstake => ([], Refused "Enter an amount")
            end).
Proof.
  cbv zeta. unfold click, isDisabled.
  destruct (isPending env); cbn [orb];
    [ split; [ intros H; now contradiction H | ];
      split; [ intros H; now contradiction H | ]; discriminate | ].
  destruct (isApproving env); cbn [orb];
    [ split; [ intros H; now contradiction H | ];
      split; [ intros H; now contradiction H | ]; discriminate | ].
  split; [ | split ].
  - destruct (validateAmount mode lpBalance stakedAmount amount) as [e |] eqn:Hv.
    + destruct (Str.truthy e && negb (amount =? ""))%bool;
        [ intros H; now contradiction H | ].
      unfold handleSubmit. destruct mode.
      * destruct (requiresApproval parseUnits env stake amount).
        -- rewrite handleApprove_deposits. intros H; now contradiction H.
        -- unfold handleStake. rewrite Hv. intros H; now contradiction H.
      * unfold handleUnstake. rewrite Hv. intros H; now contradiction H.
    + cbn [andb]. unfold handleSubmit. destruct mode.
      * destruct (requiresApproval parseUnits env stake amount).
        -- rewrite handleApprove_deposits. intros H; now contradiction H.
        -- now repeat split.
      * now repeat split.
  - destruct (match validateAmount mode lpBalance stakedAmount amount with
              | Some validationError => Str.truthy validationError
              | None => false
              end && negb (amount =? ""))%bool;
      [ intros H; now contradiction H | ].
    unfold handleSubmit. destruct mode.
    + destruct (requiresApproval parseUnits env stake amount).
      * intros _. repeat split. apply handleApprove_deposits.
      * unfold handleStake.
        destruct (validateAmount stake lpBalance stakedAmount amount);
          [ intros H; now contradiction H | ].
        destruct (Stake.stake parseUnits (hook env) (world env) amount
                              Stake.default_retries) as [evs out].
        cbn [fst]. rewrite (proj1 (approvals_InStake evs)).
        intros H; now contradiction H.
    + unfold handleUnstake.
      destruct (validateAmount unstake lpBalance stakedAmount amount);
        [ intros H; now contradiction H | ].
      destruct (Stake.unstake parseUnits (hook env) (world env) amount
                              Stake.default_retries) as [evs out].
      cbn [fst]. rewrite (proj2 (approvals_InStake evs)).
      intros H; now contradiction H.
  - intros -> _ _. destruct mode; reflexivity.
Qed.

End StakeModalFacts.

(** ** The auto-ratio effect *)

Section AutoRatioFacts.

Import Config AutoRatio.
Local Open Scope string_scope.

(** X17. One run of the effect settles the form: a second run for the same
    pool state changes nothing, so the effect does not feed itself.  It
    never rewrites the side typed last, the tokens, the lock or the mark
    of the side typed last. *)
Theorem effect_settles_after_one_run (st : PoolRatio.State) (f : Form) :
  effect st (effect st f) = effect st f
  /\ (lastChanged f = Some SideA -> amountA (effect st f) = amountA f)
  /\ (lastChanged f = Some SideB -> amountB (effect st f) = amountB f)
  /\ (lastChanged f = None -> effect st f = f)
  /\ tokenA (effect st f) = tokenA f /\ tokenB (effect st f) = tokenB f
  /\ isLocked (effect st f) = isLocked f
  /\ lastChanged (effect st f) = lastChanged f.
Proof.
  unfold effect, auto_calculate.
  destruct f as [tA tB aA aB locked [[|] |]]; cbn [isLocked lastChanged amountA amountB];
    destruct locked; cbn [negb orb];
    destruct (PoolRatio.loading st) eqn:Hload; cbn;
    rewrite ?Hload; cbn; try (repeat split; congruence).
  - destruct (Str.truthy aA) eqn:HaA; cbn; rewrite ?Hload, ?HaA; cbn;
      try (repeat split; congruence).
    destruct (Str.truthy (PoolRatio.calculateAmountB st aA)) eqn:Hc; cbn;
      rewrite ?Hload, ?HaA, ?Hc; cbn; try (repeat split; congruence).
    destruct (PoolRatio.calculateAmountB st aA =? aB) eqn:He; cbn;
      rewrite ?Hload, ?HaA, ?Hc, ?He, ?String.eqb_refl; cbn;
      repeat split; congruence.
  - destruct (Str.truthy aB) eqn:HaB; cbn; rewrite ?Hload, ?HaB; cbn;
      try (repeat split; congruence).
    destruct (Str.truthy (PoolRatio.calculateAmountA st aB)) eqn:Hc; cbn;
      rewrite ?Hload, ?HaB, ?Hc; cbn; try (repeat split; congruence).
    destruct (PoolRatio.calculateAmountA st aB =? aA) eqn:He; cbn;
      rewrite ?Hload, ?HaB, ?Hc, ?He, ?String.eqb_refl; cbn;
      repeat split; congruence.
Qed.

Lemma effect_tokens (st : PoolRatio.State) (f : Form) :
  tokenA (effect st f) = tokenA f /\ tokenB (effect st f) = tokenB f.
Proof.
  unfold effect.
  destruct (negb (isLocked f) || PoolRatio.loading st)%bool; [ now split | ].
  destruct (auto_calculate st (lastChanged f) (amountA f) (amountB f)) as [[v | v] |];
    now split.
Qed.

Lemma step_keeps_tokens_apart (f : Form) (action : Action) :
  address (tokenA f) <> address (tokenB f) ->
  address (tokenA (step f action)) <> address (tokenB (step f action)).
Proof.
  intros Hne. destruct action as [v | v | t | t | | st]; cbn; try assumption.
  - destruct (String.eqb_spec (address t) (address (tokenB f))) as [Heq | Hneq]; cbn.
    + rewrite Heq. now apply not_eq_sym.
    + assumption.
  - destruct (String.eqb_spec (address t) (address (tokenA f))) as [Heq | Hneq]; cbn.
    + rewrite Heq. now apply not_eq_sym.
    + now apply not_eq_sym.
  - destruct (effect_tokens st f) as [-> ->]. assumption.
Qed.

(** X18. From the form the modal opens with, typing, picking listed tokens,
    toggling the lock and runs of the effect never leave the same address
    on both sides: picking the token of the other side swaps the two.
    Picking a token clears both amounts. *)
Theorem selecting_keeps_the_tokens_apart (actions : list Action) :
  address (tokenA (fold_left step actions initial))
  <> address (tokenB (fold_left step actions initial))
  /\ forall (f : Form) (t : Token),
      amountA (handleSelectTokenA t f) = "" /\ amountB (handleSelectTokenA t f) = ""
      /\ amountA (handleSelectTokenB t f) = "" /\ amountB (handleSelectTokenB t f) = ""
      /\ tokenA (handleSelectTokenA t f) = t /\ tokenB (handleSelectTokenB t f) = t.
Proof.
  split.
  - assert (Hinv : forall f, address (tokenA f) <> address (tokenB f) ->
                             address (tokenA (fold_left step actions f))
                             <> address (tokenB (fold_left step actions f))).
    { induction actions as [| x l IH]; intros f Hf; [ exact Hf | ].
      cbn [fold_left]. apply IH. now apply step_keeps_tokens_apart. }
    apply Hinv. cbn. discriminate.
  - intros f t. unfold handleSelectTokenA, handleSelectTokenB.
    destruct (address t =? address (tokenB f)), (address t =? address (tokenA f));
      now repeat split.
Qed.

(** X19. AutoRatioInput never calls [onAmountAChange] or [onAmountBChange]:
    nothing it binds sets the side typed last, which its effect needs. *)
Theorem input_effect_never_fires
        (actions : list InputAction) (st : PoolRatio.State) (disabled : bool)
        (amountA_ amountB_ : string) :
  input_effect (fold_left input_step actions input_initial) st disabled
               amountA_ amountB_ = None.
Proof.
  assert (Hinv : forall s, input_lastChanged s = None ->
                           input_lastChanged (fold_left input_step actions s) = None).
  { induction actions as [| x l IH]; intros s Hs; [ exact Hs | ].
    cbn [fold_left]. apply IH. destruct x. exact Hs. }
  unfold input_effect. rewrite (Hinv input_initial eq_refl).
  destruct (negb _ || PoolRatio.loading st || disabled)%bool; reflexivity.
Qed.

End AutoRatioFacts.

(** ** The farm's APR *)

Section FarmFacts.

Import JS FarmData.
Local Open Scope string_scope.

Lemma lt_asym (x y : number) : lt x y = true -> lt y x = false.
Proof.
  unfold lt, SFltb.
  destruct x as [s | s | | s m e], y as [s' | s' | | s' m' e'];
    try destruct s; try destruct s'; cbn; try congruence.
  - rewrite (Z.compare_antisym e e').
    pose proof (Pos.compare_cont_antisym m m' Eq) as Hanti. cbn [CompOpp] in Hanti.
    change (PosDef.Pos.compare_cont Eq m' m) with (Pos.compare_cont Eq m' m).
    change (PosDef.Pos.compare_cont Eq m m') with (Pos.compare_cont Eq m m').
    rewrite <- Hanti.
    destruct (e ?= e')%Z; cbn; try congruence.
    destruct (Pos.compare_cont Eq m m'); cbn; congruence.
  - rewrite (Z.compare_antisym e e').
    pose proof (Pos.compare_cont_antisym m m' Eq) as Hanti. cbn [CompOpp] in Hanti.
    change (PosDef.Pos.compare_cont Eq m' m) with (Pos.compare_cont Eq m' m).
    change (PosDef.Pos.compare_cont Eq m m') with (Pos.compare_cont Eq m m').
    rewrite <- Hanti.
    destruct (e ?= e')%Z; cbn; try congruence.
    destruct (Pos.compare_cont Eq m m'); cbn; congruence.
Qed.

Lemma lt_irrefl (x : number) : lt x x = false.
Proof.
  destruct (lt x x) eqn:H; [ | reflexivity ].
  pose proof (lt_asym _ _ H). congruence.
Qed.

(** [Math.min(x, y)] is never above [y]. *)
Lemma Math_min_capped (x y : number) : gt (JSGlobals.Math_min x y) y = false.
Proof.
  unfold JSGlobals.Math_min, gt.
  destruct (JSGlobals.isNaN x || JSGlobals.isNaN y)%bool eqn:Hnan.
  - destruct y; reflexivity.
  - destruct (lt x y) eqn:Hxy; [ now apply lt_asym | ].
    destruct (lt y x) eqn:Hyx; [ apply lt_irrefl | ].
    destruct x as [[|] | s | | s m e]; try exact Hyx; apply lt_irrefl.
Qed.

Lemma mul_zero_not_above_zero (x : number) (s : bool) :
  gt (mul x (S754_zero s)) pos_zero = false.
Proof.
  destruct x as [s' | s' | | s' m e]; cbn; try reflexivity;
    destruct (xorb s' s); reflexivity.
Qed.

Lemma zero_mul_not_above_zero (x : number) (s : bool) :
  gt (mul (S754_zero s) x) pos_zero = false.
Proof.
  destruct x as [s' | s' | | s' m e]; cbn; try reflexivity;
    destruct (xorb s s'); reflexivity.
Qed.

Variable formatUnits : Z -> nat -> string.

(** X20. The APR that [useFarmPools] reports is never above 999.  It is +0
    when nothing is staked in the MasterChef, whatever the reserves, and
    when the indexer does not know the pair, whatever is staked. *)
Theorem apr_is_capped
        (rewardPerBlock : number) (subgraphData : option Pair)
        (lpBalance_ : option Z) (userInfo : option (Z * Z))
        (pendingRewards_ totalStaked_ : option Z) :
  let data := useFarmPools formatUnits rewardPerBlock subgraphData lpBalance_
                           userInfo pendingRewards_ totalStaked_ in
  gt (apr data) (of_Z 999) = false
  /\ (Rpc.truthy_bigint totalStaked_ = false ->
      tvl data = "0" /\ apr data = pos_zero /\ gt (tvlUSD data) pos_zero = false)
  /\ (subgraphData = None ->
      apr data = pos_zero /\ gt (tvlUSD data) pos_zero = false).
Proof.
  cbv zeta. unfold useFarmPools. cbn [apr tvl tvlUSD].
  split; [ apply Math_min_capped | ]. split.
  - intros Hnone.
    assert (Htvl : formatted formatUnits totalStaked_ = "0").
    { unfold formatted. destruct totalStaked_ as [v |]; [ | reflexivity ].
      rewrite Hnone. reflexivity. }
    rewrite Htvl. split; [ reflexivity | ].
    change (parseFloat "0") with (S754_zero false).
    rewrite zero_mul_not_above_zero. now split.
  - intros ->. cbn [parsed_or].
    replace (if gt (of_Z 1) pos_zero
             then div (add (mul pos_zero monPrice) (mul pos_zero quickPrice)) (of_Z 1)
             else pos_zero) with (S754_zero false) by (vm_compute; reflexivity).
    rewrite mul_zero_not_above_zero. now split.
Qed.

End FarmFacts.

(** ** Adding liquidity with the native token *)

Section NativeLiquidity.

Import Config Liquidity.
Local Open Scope string_scope.

Variable parseUnits : string -> nat -> option Z.

(** X4. When exactly one of the two tokens is native, it does not matter on
    which side it is entered: the hook configured with the tokens
    exchanged and called with the amounts exchanged makes the same
    request, an [addLiquidityETH] for the other token that sends the
    native amount as value. *)
Theorem native_side_does_not_matter
        (account : option string) (publicClient : option Estimator)
        (tA tB : Token) (slippage now : Z) (amountA amountB : string) :
  is_native tA = negb (is_native tB) ->
  addLiquidity parseUnits account publicClient tA tB slippage now amountA amountB
  = addLiquidity parseUnits account publicClient tB tA slippage now amountB amountA
  /\ forall req,
      addLiquidity parseUnits account publicClient tA tB slippage now amountA amountB
      = Writes req ->
      exists token amountToken amountNative who,
        call req = AddLiquidityETH token amountToken
                                   ((amountToken * (100 - slippage)) ÷ 100)
                                   ((amountNative * (100 - slippage)) ÷ 100)
                                   who (deadline_at now)
        /\ value req = Some amountNative
        /\ (token, Some amountToken, Some amountNative)
           = if is_native tA
             then (address tB, parseUnits amountB (decimals tB),
                   parseUnits amountA (decimals tA))
             else (address tA, parseUnits amountA (decimals tA),
                   parseUnits amountB (decimals tB)).
Proof.
  intros Hone. unfold addLiquidity.
  destruct account as [who |]; [ | split; [ reflexivity | discriminate ] ].
  destruct publicClient as [estimate |]; [ | split; [ reflexivity | discriminate ] ].
  destruct (Str.truthy who); cbn [negb];
    [ | split; [ reflexivity | discriminate ] ].
  destruct (Str.truthy amountA), (Str.truthy amountB),
    (JS.le (JS.parseFloat amountA) JS.pos_zero),
    (JS.le (JS.parseFloat amountB) JS.pos_zero); cbn [negb orb];
    try (split; [ reflexivity | discriminate ]).
  destruct (parseUnits amountA (decimals tA)) as [amountAWei |],
    (parseUnits amountB (decimals tB)) as [amountBWei |];
    try (split; [ reflexivity | discriminate ]).
  rewrite Hone. destruct (is_native tB); cbn [negb orb].
  - split; [ reflexivity | ].
    unfold write_with_estimate. intros req.
    destruct (estimate _ _); intros H; injection H as <-; cbn;
      exists (address tA), amountAWei, amountBWei, who; now repeat split.
  - split; [ reflexivity | ].
    unfold write_with_estimate. intros req.
    destruct (estimate _ _); intros H; injection H as <-; cbn;
      exists (address tB), amountBWei, amountAWei, who; now repeat split.
Qed.

(** X5. The gas estimate decides nothing but the gas of the request: with any
    estimator the two hooks throw the same error or make the same call
    with the same value as without an estimate, and the gas is 120% of
    the estimate, rounded down, or left to the wallet when the estimate
    fails. *)
Theorem estimate_sets_only_the_gas
        (account : option string) (estimate : Estimator)
        (tA tB : Token) (slippage now : Z) (amountA amountB : string)
        (lpAmount : Z) (token0Address token1Address : string)
        (minAmount0 minAmount1 : Z) (hasWMON : bool) :
  let agree with_estimate without :=
    match with_estimate, without with
    | Throws e, Throws e0 => e = e0
    | Writes req, Writes req0 =>
        call req = call req0 /\ value req = value req0 /\ gas req0 = None
        /\ gas req = match estimate (call req0) (value req0) with
                     | Some gasEstimate => Some ((gasEstimate * 120) ÷ 100)
                     | None => None
                     end
    | _, _ => False
    end in
  agree (addLiquidity parseUnits account (Some estimate) tA tB slippage now
                      amountA amountB)
        (addLiquidity parseUnits account (Some (fun _ _ => None)) tA tB slippage now
                      amountA amountB)
  /\ agree (removeLiquidity account (Some estimate) slippage now lpAmount
                            token0Address token1Address minAmount0 minAmount1
                            hasWMON)
           (removeLiquidity account (Some (fun _ _ => None)) slippage now lpAmount
                            token0Address token1Address minAmount0 minAmount1
                            hasWMON).
Proof.
  cbv zeta. split.
  - unfold addLiquidity.
    destruct account as [who |]; [ | reflexivity ].
    destruct (negb (Str.truthy who)); [ reflexivity | ].
    match goal with |- context [if ?c then Throws (Error "Invalid amounts") else _] =>
      destruct c end; [ reflexivity | ].
    destruct (parseUnits amountA (decimals tA)) as [amountAWei |];
      [ | reflexivity ].
    destruct (parseUnits amountB (decimals tB)) as [amountBWei |];
      [ | reflexivity ].
    unfold write_with_estimate.
    destruct (is_native tA || is_native tB)%bool; cbn;
      destruct (estimate _ _); now repeat split.
  - unfold removeLiquidity.
    destruct account as [who |]; [ | reflexivity ].
    destruct (negb (Str.truthy who)); [ reflexivity | ].
    destruct (lpAmount <=? 0)%Z; [ reflexivity | ].
    unfold write_with_estimate.
    destruct hasWMON; cbn; destruct (estimate _ _); now repeat split.
Qed.

End NativeLiquidity.

(** ** Approving a token for the router *)

Section ApproveRouterFacts.

Import Approval Approve.
Local Open Scope string_scope.

Variable parseUnits : string -> nat -> option Z.

(** X21. Whenever [useApproval] says that an approval is needed, its
    [approve] does write one, on the token, for the spender and
    999999999999 tokens.  That approval is not unlimited: once the
    allowance is the approved amount, an approval is still needed exactly
    for the amounts above it. *)
Theorem approve_answers_needsApproval
        (tokenAddress : option string) (amount_ : string) (decimals : nat)
        (allowance : option Z) (spender_ : string) (cap : Z) :
  needsApproval parseUnits tokenAddress amount_ decimals allowance = Some true ->
  parseUnits "999999999999" decimals = Some cap ->
  0 < cap ->
  exists a amountWei,
    tokenAddress = Some a
    /\ approve parseUnits tokenAddress decimals spender_
       = Writes {| token := a; spender := spender_; amount := cap |}
    /\ amountBigInt parseUnits amount_ decimals = Some amountWei
    /\ needsApproval parseUnits tokenAddress amount_ decimals (Some cap)
       = Some (cap <? amountWei)%Z.
Proof.
  unfold needsApproval, approve. intros Hneeds Hcap Hpos.
  destruct (amountBigInt parseUnits amount_ decimals) as [amountWei |];
    [ | discriminate ].
  injection Hneeds as Hneeds.
  apply andb_true_iff in Hneeds. destruct Hneeds as [Hneeds Hlt].
  apply andb_true_iff in Hneeds. destruct Hneeds as [Hnative Hamount].
  apply negb_true_iff in Hnative.
  destruct tokenAddress as [a |]; [ | discriminate ].
  assert (Htruthy : Str.truthy a = true).
  { unfold isNative in Hnative. apply orb_false_iff in Hnative.
    destruct Hnative as [_ H]. now apply negb_false_iff in H. }
  exists a, amountWei. rewrite Htruthy, Hnative, Hcap. cbn [negb orb andb].
  repeat split. f_equal.
  assert (Hc : currentAllowance (Some cap) = cap).
  { unfold currentAllowance, Rpc.truthy_bigint.
    destruct (Z.eqb_spec cap 0); [ lia | reflexivity ]. }
  rewrite Hc, Hamount. reflexivity.
Qed.

End ApproveRouterFacts.

(** ** Instances of the further properties *)

Section MoreInstances.

Import Rpc Examples Samples.
Local Open Scope string_scope.
Local Open Scope list_scope.

(** MON, QUICK against QUICK, MON on the sample pool. *)
Lemma swapping_tokens_swaps_sides_witness :
  PoolRatio.getActualAddress Config.MON_TOKEN
  <> PoolRatio.getActualAddress Config.QUICK_TOKEN
  /\ PoolRatio.reserveA
       (PoolRatio.fetchReserves (Some Config.MON_TOKEN) (Some Config.QUICK_TOKEN)
                                subgraph PoolRatio.initial)
     = PoolRatio.reserveB
         (PoolRatio.fetchReserves (Some Config.QUICK_TOKEN) (Some Config.MON_TOKEN)
                                  subgraph PoolRatio.initial)
  /\ PoolRatio.calculateAmountB
       (PoolRatio.fetchReserves (Some Config.MON_TOKEN) (Some Config.QUICK_TOKEN)
                                subgraph PoolRatio.initial) "1.5"
     = PoolRatio.calculateAmountA
         (PoolRatio.fetchReserves (Some Config.QUICK_TOKEN) (Some Config.MON_TOKEN)
                                  subgraph PoolRatio.initial) "1.5".
Proof.
  assert (Hne : PoolRatio.getActualAddress Config.MON_TOKEN
                <> PoolRatio.getActualAddress Config.QUICK_TOKEN).
  { vm_compute. discriminate. }
  split; [ exact Hne | ].
  destruct (swapping_tokens_swaps_sides Config.MON_TOKEN Config.QUICK_TOKEN
              subgraph PoolRatio.initial Hne)
    as (_ & HA & _ & _ & _ & HB & _).
  split; [ exact HA | exact (HB "1.5") ].
Defined.

(** MON against WMON, after the sample pool was fetched. *)
Lemma same_token_is_not_looked_up_witness :
  PoolRatio.getActualAddress Config.MON_TOKEN
  = PoolRatio.getActualAddress Config.WMON_TOKEN
  /\ PoolRatio.error
       (PoolRatio.fetchReserves (Some Config.MON_TOKEN) (Some Config.WMON_TOKEN)
                                subgraph fetched)
     = Some "Same token selected"
  /\ PoolRatio.reserves
       (PoolRatio.fetchReserves (Some Config.MON_TOKEN) (Some Config.WMON_TOKEN)
                                subgraph fetched)
     = PoolRatio.reserves fetched.
Proof.
  assert (Hsame : PoolRatio.getActualAddress Config.MON_TOKEN
                  = PoolRatio.getActualAddress Config.WMON_TOKEN).
  { vm_compute. reflexivity. }
  split; [ exact Hsame | ].
  destruct (same_token_is_not_looked_up Config.MON_TOKEN Config.WMON_TOKEN
              subgraph offline fetched Hsame)
    as (_ & Herr & Hres & _).
  split; [ exact Herr | exact Hres ].
Defined.

(** A refresh of the sample pool while the indexer cannot be reached. *)
Lemma failed_refresh_keeps_reserves_witness :
  PoolRatio.getActualAddress Config.MON_TOKEN
  <> PoolRatio.getActualAddress Config.QUICK_TOKEN
  /\ PoolRatio.loading
       (PoolRatio.fetchReserves (Some Config.MON_TOKEN) (Some Config.QUICK_TOKEN)
                                offline fetched) = false
  /\ PoolRatio.reserves
       (PoolRatio.fetchReserves (Some Config.MON_TOKEN) (Some Config.QUICK_TOKEN)
                                offline fetched) = PoolRatio.reserves fetched
  /\ PoolRatio.error
       (PoolRatio.fetchReserves (Some Config.MON_TOKEN) (Some Config.QUICK_TOKEN)
                                offline fetched) = Some "Failed to fetch".
Proof.
  assert (Hne : PoolRatio.getActualAddress Config.MON_TOKEN
                <> PoolRatio.getActualAddress Config.QUICK_TOKEN).
  { vm_compute. discriminate. }
  split; [ exact Hne | ].
  destruct (failed_refresh_keeps_reserves Config.MON_TOKEN Config.QUICK_TOKEN
              offline fetched Hne)
    as (Hload & Hfails & _).
  split; [ exact Hload | ].
  exact (Hfails (Some "Failed to fetch") eq_refl).
Defined.

(** One LP token out of five on the steady chain: the first attempt is
    confirmed. *)
Lemma stake_success_means_confirmed_witness :
  (Stake.stake Viem.parseUnits (staker (Some (5 * 10 ^ 18))) steady "1"
               Stake.default_retries = steady_run
   /\ Stake.success (Stake.succeeded "0xabc") = true)
  /\ exists k hash_ pre,
      (1 <= k <= Stake.default_retries)%nat
      /\ Stake.written (Stake.attempt_at steady k) = Resolved hash_
      /\ Stake.confirmed (Stake.attempt_at steady k) = true
      /\ Stake.succeeded "0xabc" = Stake.succeeded hash_
      /\ fst steady_run = pre ++ [Stake.WaitForTx hash_ 180000].
Proof.
  assert (Hrun : Stake.stake Viem.parseUnits (staker (Some (5 * 10 ^ 18))) steady "1"
                             Stake.default_retries = steady_run).
  { vm_compute. reflexivity. }
  split; [ split; [ exact Hrun | reflexivity ] | ].
  exact (proj2 (proj2 (proj2 (proj2 (proj2
           (stake_success_means_confirmed Viem.parseUnits
              (staker (Some (5 * 10 ^ 18))) steady "1" Stake.default_retries
              (fst steady_run) (Stake.succeeded "0xabc") Hrun eq_refl)))))).
Defined.

(** On the chain where every submission reverts, [unstake] hands three
    withdrawals to the wallet. *)
Lemma unconfirmed_attempts_are_resubmitted_witness :
  (Stake.disconnected (staker (Some (5 * 10 ^ 18))) = false
   /\ Str.truthy "1" = true
   /\ JS.le (JS.parseFloat "1") JS.pos_zero = false
   /\ Viem.parseUnits "1" 18 = Some (10 ^ 18)
   /\ forall k, (1 <= k <= 3)%nat ->
                Stake.confirmed (Stake.attempt_at hostile k) = false
                /\ exists n p hash_,
                    Stake.transactionCount (Stake.attempt_at hostile k) = Resolved n
                    /\ Stake.currentGasPrice (Stake.attempt_at hostile k) = Resolved p
                    /\ Stake.written (Stake.attempt_at hostile k) = Resolved hash_)
  /\ snd (Stake.unstake Viem.parseUnits (staker (Some (5 * 10 ^ 18))) hostile "1" 3)
     = Stake.Returns (Stake.failed "Transaction not confirmed in time")
  /\ List.length
       (Stake.submissions
          (fst (Stake.unstake Viem.parseUnits (staker (Some (5 * 10 ^ 18)))
                              hostile "1" 3))) = 3%nat.
Proof.
  assert (H1 : Stake.disconnected (staker (Some (5 * 10 ^ 18))) = false)
    by reflexivity.
  assert (H2 : Str.truthy "1" = true) by reflexivity.
  assert (H3 : JS.le (JS.parseFloat "1") JS.pos_zero = false)
    by (vm_compute; reflexivity).
  assert (H4 : Viem.parseUnits "1" 18 = Some (10 ^ 18))
    by (vm_compute; reflexivity).
  assert (H5 : forall k, (1 <= k <= 3)%nat ->
                Stake.confirmed (Stake.attempt_at hostile k) = false
                /\ exists n p hash_,
                    Stake.transactionCount (Stake.attempt_at hostile k) = Resolved n
                    /\ Stake.currentGasPrice (Stake.attempt_at hostile k) = Resolved p
                    /\ Stake.written (Stake.attempt_at hostile k) = Resolved hash_).
  { intros k _. split; [ reflexivity | ].
    exists 7, 52000000001, "0xdef". repeat split. }
  split; [ exact (conj H1 (conj H2 (conj H3 (conj H4 H5)))) | ].
  destruct (unconfirmed_attempts_are_resubmitted Viem.parseUnits
              (staker (Some (5 * 10 ^ 18))) hostile "1" 3 (10 ^ 18)
              H1 H2 H3 H4 H5)
    as [(Hout & Hsub & _) _].
  split; [ exact Hout | exact Hsub ].
Defined.

(** An amount that is no number: [unstake] does not answer "Invalid
    amount", the promise rejects. *)
Lemma unreadable_amount_passes_the_check_witness :
  (Stake.disconnected (staker None) = false
   /\ Str.truthy "abc" = true
   /\ JS.parseFloat "abc" = JS.NaN)
  /\ Stake.unstake Viem.parseUnits (staker None) steady "abc" 3
     = ([], Stake.Throws).
Proof.
  assert (H1 : Stake.disconnected (staker None) = false) by reflexivity.
  assert (H2 : Str.truthy "abc" = true) by reflexivity.
  assert (H3 : JS.parseFloat "abc" = JS.NaN) by (vm_compute; reflexivity).
  assert (H4 : Viem.parseUnits "abc" 18 = None) by (vm_compute; reflexivity).
  split; [ now repeat split | ].
  exact (proj1 (proj1 (unreadable_amount_passes_the_check Viem.parseUnits
                         (staker None) steady "abc" 3 H1 H2 H3) H4)).
Defined.

(** Three minutes for a receipt that shows up at the third poll. *)
Lemma waitForTx_polls_until_receipt_or_timeout_witness :
  ((forall i, 0 <= Receipt.took (third_poll i) /\ 0 <= Receipt.late (third_poll i))
   /\ (Receipt.steps 180000 <= 90)%nat)
  /\ exists n b,
      Receipt.waitForTx 90 true third_poll 1700000000000 180000 = Some (n, b)
      /\ (n <= Receipt.steps 180000)%nat
      /\ (forall j, (S j < n)%nat ->
                    forall s, Receipt.answer (third_poll j) <> Receipt.Found s)
      /\ (b = true <->
          exists j, n = S j
                    /\ Receipt.answer (third_poll j) = Receipt.Found Receipt.success).
Proof.
  assert (H1 : forall i, 0 <= Receipt.took (third_poll i)
                         /\ 0 <= Receipt.late (third_poll i)).
  { intros i. cbn. lia. }
  assert (H2 : (Receipt.steps 180000 <= 90)%nat).
  { vm_compute. repeat constructor. }
  split; [ now split | ].
  exact (waitForTx_polls_until_receipt_or_timeout third_poll 1700000000000 180000 90
           H1 H2).
Defined.

(** One MON with two QUICK, entered either way round. *)
Lemma native_side_does_not_matter_witness :
  Config.is_native Config.MON_TOKEN = negb (Config.is_native Config.QUICK_TOKEN)
  /\ Liquidity.addLiquidity Viem.parseUnits (Some user) (Some estimate)
                            Config.MON_TOKEN Config.QUICK_TOKEN 10 1700000000999
                            "1" "2"
     = Liquidity.addLiquidity Viem.parseUnits (Some user) (Some estimate)
                              Config.QUICK_TOKEN Config.MON_TOKEN 10 1700000000999
                              "2" "1".
Proof.
  assert (H : Config.is_native Config.MON_TOKEN
              = negb (Config.is_native Config.QUICK_TOKEN)).
  { vm_compute. reflexivity. }
  split; [ exact H | ].
  exact (proj1 (native_side_does_not_matter Viem.parseUnits (Some user)
                  (Some estimate) Config.MON_TOKEN Config.QUICK_TOKEN 10
                  1700000000999 "1" "2" H)).
Defined.

(** Without a fetched allowance nothing is handed to the wallet. *)
Lemma stake_without_allowance_submits_nothing_witness :
  ((Stake.allowance unapproved = None
    \/ exists a amountWei,
        Stake.allowance unapproved = Some a
        /\ Viem.parseUnits "1" 18 = Some amountWei /\ a < amountWei)
   /\ Stake.stake Viem.parseUnits unapproved steady "1" Stake.default_retries
      = ([], Stake.Returns (Stake.failed "Please approve LP tokens first")))
  /\ Stake.submissions [] = []
  /\ (Stake.Returns (Stake.failed "Please approve LP tokens first") = Stake.Throws
      \/ exists msg,
          Stake.Returns (Stake.failed "Please approve LP tokens first")
          = Stake.Returns (Stake.failed msg)).
Proof.
  assert (H1 : Stake.allowance unapproved = None
               \/ exists a amountWei,
                   Stake.allowance unapproved = Some a
                   /\ Viem.parseUnits "1" 18 = Some amountWei /\ a < amountWei).
  { left. reflexivity. }
  assert (H2 : Stake.stake Viem.parseUnits unapproved steady "1" Stake.default_retries
               = ([], Stake.Returns (Stake.failed "Please approve LP tokens first"))).
  { vm_compute. reflexivity. }
  split; [ now split | ].
  exact (stake_without_allowance_submits_nothing Viem.parseUnits unapproved steady
           "1" Stake.default_retries [] _ H1 H2).
Defined.

(** A tenth of an LP token does not cover a stake of one. *)
Lemma stake_with_short_balance_submits_nothing_witness :
  (Stake.lpBalance (staker (Some (10 ^ 17))) = Some (10 ^ 17)
   /\ 10 ^ 17 <> 0
   /\ Viem.parseUnits "1" 18 = Some (10 ^ 18)
   /\ 10 ^ 17 < 10 ^ 18
   /\ Stake.stake Viem.parseUnits (staker (Some (10 ^ 17))) steady "1"
                  Stake.default_retries
      = ([], Stake.Returns (Stake.failed "Insufficient LP balance")))
  /\ Stake.submissions [] = []
  /\ exists msg,
      Stake.Returns (Stake.failed "Insufficient LP balance")
      = Stake.Returns (Stake.failed msg).
Proof.
  assert (H1 : Stake.lpBalance (staker (Some (10 ^ 17))) = Some (10 ^ 17))
    by reflexivity.
  assert (H2 : 10 ^ 17 <> 0) by lia.
  assert (H3 : Viem.parseUnits "1" 18 = Some (10 ^ 18)) by (vm_compute; reflexivity).
  assert (H4 : 10 ^ 17 < 10 ^ 18) by lia.
  assert (H5 : Stake.stake Viem.parseUnits (staker (Some (10 ^ 17))) steady "1"
                           Stake.default_retries
               = ([], Stake.Returns (Stake.failed "Insufficient LP balance"))).
  { vm_compute. reflexivity. }
  split; [ exact (conj H1 (conj H2 (conj H3 (conj H4 H5)))) | ].
  exact (stake_with_short_balance_submits_nothing Viem.parseUnits
           (staker (Some (10 ^ 17))) steady "1" Stake.default_retries [] _
           (10 ^ 17) (10 ^ 18) H1 H2 H3 H4 H5).
Defined.

(** One and a half QUICK against an allowance of one. *)
Lemma approve_answers_needsApproval_witness :
  (Approval.needsApproval Viem.parseUnits (Some Config.QUICK) "1.5" 18 (Some (10 ^ 18))
   = Some true
   /\ Viem.parseUnits "999999999999" 18 = Some (999999999999 * 10 ^ 18)
   /\ 0 < 999999999999 * 10 ^ 18)
  /\ exists a amountWei,
      Some Config.QUICK = Some a
      /\ Approve.approve Viem.parseUnits (Some Config.QUICK) 18 Config.ROUTER
         = Approve.Writes {| Approve.token := a; Approve.spender := Config.ROUTER;
                             Approve.amount := 999999999999 * 10 ^ 18 |}
      /\ Approval.amountBigInt Viem.parseUnits "1.5" 18 = Some amountWei
      /\ Approval.needsApproval Viem.parseUnits (Some Config.QUICK) "1.5" 18
                                (Some (999999999999 * 10 ^ 18))
         = Some (999999999999 * 10 ^ 18 <? amountWei)%Z.
Proof.
  assert (H1 : Approval.needsApproval Viem.parseUnits (Some Config.QUICK) "1.5" 18
                                      (Some (10 ^ 18)) = Some true)
    by (vm_compute; reflexivity).
  assert (H2 : Viem.parseUnits "999999999999" 18 = Some (999999999999 * 10 ^ 18))
    by (vm_compute; reflexivity).
  assert (H3 : 0 < 999999999999 * 10 ^ 18) by lia.
  split; [ exact (conj H1 (conj H2 H3)) | ].
  exact (approve_answers_needsApproval Viem.parseUnits (Some Config.QUICK) "1.5" 18
           (Some (10 ^ 18)) Config.ROUTER (999999999999 * 10 ^ 18) H1 H2 H3).
Defined.

End MoreInstances.
